(** * The ACK generator configuration: schema and loader

    A shallow embedding of [pkg/model/generator_config.go].

    The Go file declares the configuration structs, with the [json] tags
    that drive decoding, and one function, [NewGeneratorConfig], which reads
    a file and hands its bytes to [yaml.Unmarshal] of [github.com/ghodss/yaml].
    That library converts the YAML text to JSON and then calls
    [encoding/json.Unmarshal] on the tagged structs.  The development
    therefore has three layers:

    - the operating system ([ioutil.ReadFile]) and the text-level conversion
      of YAML to a JSON document are collaborators of the loader; they are
      taken as [Variable]s of the section that defines [NewGeneratorConfig];
    - a JSON document is a tree ([json]); decoding a tree into the structs
      follows [encoding/json]: the limit on nesting, [null] handling,
      allocation of pointers,
      maps and slices, field lookup by exact name and then by case folding,
      the first saved type error;
    - the structs are records whose fields have the Go types: a map is
      [option (gmap K V)] ([None] is the nil map), a slice is
      [option (list A)], a pointer to [T] is [option T]. *)

From Stdlib Require Import ZArith String Ascii List Bool Lia.
From Stdlib Require Import DecimalString DecimalZ.
From stdpp Require Import base option list gmap strings fin_maps sorting.

Local Open Scope string_scope.
Set Warnings "-register-all".

(** ** JSON documents *)

(** The document handed to [encoding/json], as a tree.  An object keeps its
    members in document order, duplicates included, because the decoder
    visits them one after the other. *)
Inductive json : Type :=
| JNull
| JBool (b : bool)
| JNumber (lit : string)
| JString (s : string)
| JArray (xs : list json)
| JObject (kvs : list (string * json)).

(** The word [encoding/json] uses for a value in [UnmarshalTypeError.Value]. *)
Definition json_kind (j : json) : string :=
  match j with
  | JNull => "null"
  | JBool _ => "bool"
  | JNumber _ => "number"
  | JString _ => "string"
  | JArray _ => "array"
  | JObject _ => "object"
  end.

(** The number of arrays and objects around the innermost value: what the
    scanner of [encoding/json] has on its parse stack there. *)
Fixpoint json_depth (j : json) : N :=
  match j with
  | JArray xs => 1 + fold_right (fun x acc => N.max (json_depth x) acc) 0%N xs
  | JObject kvs =>
      1 + fold_right (fun kv acc => N.max (json_depth (snd kv)) acc) 0%N kvs
  | _ => 0
  end.

(** [maxNestingDepth] of [encoding/json/scanner.go]. *)
Definition maxNestingDepth : N := 10000.

(** ** Errors *)

(** [json.UnmarshalTypeError]: the JSON value and the Go type it could not
    be stored in.  (The byte offset and the struct/field context of the Go
    error are not kept.) *)
Record UnmarshalTypeError : Type := {
  Value : string;
  GoType : string
}.

(** [json.SyntaxError] and [json.UnmarshalTypeError], the two errors
    [json.Unmarshal] returns for a document that was written by
    [json.Marshal]: the first for a document nested too deep, before
    anything is decoded, the second for a value of the wrong type. *)
Inductive jsonError : Type :=
| JSyntaxError (msg : string)
| JTypeError (e : UnmarshalTypeError).

(** The error a load can return: the one [ioutil.ReadFile] reported, or one
    of the two errors [yaml.Unmarshal] wraps ("error converting YAML to
    JSON", "error unmarshaling JSON"), the second with the syntax error or
    the type error of [encoding/json]. *)
Inductive error (IOE YE : Type) : Type :=
| IOError (e : IOE)
| ConvertError (e : YE)
| UnmarshalError (e : UnmarshalTypeError)
| SyntaxError (msg : string).

Arguments IOError {IOE YE} e.
Arguments ConvertError {IOE YE} e.
Arguments UnmarshalError {IOE YE} e.
Arguments SyntaxError {IOE YE} msg.

(** The two fatal kinds of section 7 of the specification. *)
Definition is_io_error {IOE YE} (e : error IOE YE) : bool :=
  match e with IOError _ => true | _ => false end.

Definition is_schema_error {IOE YE} (e : error IOE YE) : bool :=
  match e with IOError _ => false | _ => true end.

(** A Go [(value, error)] result of a collaborator. *)
Inductive result (E A : Type) : Type :=
| Ok (a : A)
| Err (e : E).

Arguments Ok {E A} a.
Arguments Err {E A} e.

(** ** The decoder state *)

(** [decodeState.savedError]: the first type error met; decoding goes on
    after it. *)
Abbreviation decodeState := (option UnmarshalTypeError).

Definition saveError (e : UnmarshalTypeError) (d : decodeState) : decodeState :=
  match d with
  | None => Some e
  | Some _ => d
  end.

(** A decoder stores a JSON value into a Go value that already exists. *)
Definition decoder (T : Type) : Type := json -> T -> decodeState -> T * decodeState.

Definition mismatch (ty : string) (j : json) (d : decodeState) : decodeState :=
  saveError {| Value := json_kind j; GoType := ty |} d.

(** ** Field lookup *)

Definition caseMask : N := 223.

Definition isUpperLetter (n : N) : bool := (65 <=? n)%N && (n <=? 90)%N.

(** The two non-ASCII runes that fold to an ASCII letter: U+017F (long s,
    bytes C5 BF) for [s], and U+212A (Kelvin sign, bytes E2 84 AA) for [k].
    [specialFold sb t] consumes that rune from [t] when [sb] is the letter. *)
Definition specialFold (sb : ascii) (t : string) : option string :=
  let u := N.land (N_of_ascii sb) caseMask in
  if (u =? 83)%N then
    match t with
    | String b1 (String b2 r) =>
        if ((N_of_ascii b1 =? 197) && (N_of_ascii b2 =? 191))%N then Some r else None
    | _ => None
    end
  else if (u =? 75)%N then
    match t with
    | String b1 (String b2 (String b3 r)) =>
        if ((N_of_ascii b1 =? 226) && (N_of_ascii b2 =? 132) && (N_of_ascii b3 =? 170))%N
        then Some r else None
    | _ => None
    end
  else None.

(** [equalFoldRight] of [encoding/json/fold.go]: [s] is a field name (ASCII),
    [t] a key of the document.  On the field names of this schema the other
    folding functions of that file agree with it. *)
Fixpoint equalFoldRight (s t : string) {struct s} : bool :=
  match s with
  | EmptyString =>
      match t with
      | EmptyString => true
      | String _ _ => false
      end
  | String sb s' =>
      match t with
      | EmptyString => false
      | String tb t' =>
          if (N_of_ascii tb <? 128)%N then
            if Ascii.eqb sb tb then equalFoldRight s' t'
            else
              let sbUpper := N.land (N_of_ascii sb) caseMask in
              if isUpperLetter sbUpper && (sbUpper =? N.land (N_of_ascii tb) caseMask)%N
              then equalFoldRight s' t'
              else false
          else
            match specialFold sb t with
            | Some rest => equalFoldRight s' rest
            | None => false
            end
      end
  end.

(** The field a key names: an exact match of the tag name wins, otherwise
    the first field whose name folds to the key. *)
Definition lookupField {T : Type} (fields : list (string * T)) (key : string)
  : option (string * T) :=
  match find (fun f => String.eqb (fst f) key) fields with
  | Some f => Some f
  | None => find (fun f => equalFoldRight (fst f) key) fields
  end.

(** A key the decoder resolves to the field tagged [name]. *)
Definition names {T : Type} (fields : list (string * T)) (key name : string) : bool :=
  match lookupField fields key with
  | Some f => String.eqb (fst f) name
  | None => false
  end.

(** ** Decoding the Go kinds of the schema *)

Definition decode_string : decoder string := fun j v d =>
  match j with
  | JNull => (v, d)
  | JString s => (s, d)
  | _ => (v, mismatch "string" j d)
  end.

Definition decode_bool : decoder bool := fun j v d =>
  match j with
  | JNull => (v, d)
  | JBool b => (b, d)
  | _ => (v, mismatch "bool" j d)
  end.

(** A pointer: [null] sets it to nil; any other value is decoded into the
    pointee, which is allocated (zero) when the pointer is nil. *)
Definition decode_ptr {T : Type} (zero : T) (dec : decoder T) : decoder (option T) :=
  fun j v d =>
    match j with
    | JNull => (None, d)
    | _ => let '(t, d') := dec j (default zero v) d in (Some t, d')
    end.

(** The elements of an array, each decoded into the element already at its
    index, or into a zero element past the old length.  (The capacity of a
    Go slice is not modelled: an element that extends the slice starts from
    the zero value.) *)
Fixpoint decode_elems {T : Type} (zero : T) (dec : decoder T)
    (xs : list json) (old : list T) (d : decodeState) : list T * decodeState :=
  match xs with
  | [] => ([], d)
  | x :: xs' =>
      let '(t, d1) := dec x (hd zero old) d in
      let '(ts, d2) := decode_elems zero dec xs' (tl old) d1 in
      (t :: ts, d2)
  end.

(** A slice: [null] sets it to nil, an array gives a slice of the array's
    length (non-nil also when empty). *)
Definition decode_slice {T : Type} (ty : string) (zero : T) (dec : decoder T)
  : decoder (option (list T)) :=
  fun j v d =>
    match j with
    | JNull => (None, d)
    | JArray xs =>
        let '(ts, d') := decode_elems zero dec xs (default [] v) d in (Some ts, d')
    | _ => (v, mismatch ty j d)
    end.

(** One member of an object stored in a map with string keys: the value is
    decoded into a fresh zero element, then the entry is set. *)
Definition map_member {T : Type} (zero : T) (dec : decoder T)
    (st : gmap string T * decodeState) (kv : string * json)
  : gmap string T * decodeState :=
  let '(t, d1) := dec (snd kv) zero (snd st) in
  (<[fst kv := t]> (fst st), d1).

(** A map with string keys: [null] sets it to nil; an object allocates the
    map when it is nil and then stores its members in order. *)
Definition decode_map {T : Type} (ty : string) (zero : T) (dec : decoder T)
  : decoder (option (gmap string T)) :=
  fun j v d =>
    match j with
    | JNull => (None, d)
    | JObject kvs =>
        let '(m, d') := fold_left (map_member zero dec) kvs (default ∅ v, d) in
        (Some m, d')
    | _ => (v, mismatch ty j d)
    end.

(** [strconv.ParseInt(s, 10, 64)]: an optional sign, then one or more
    decimal digits, and the value must fit 64 bits. *)
Definition ParseInt (s : string) : option Z :=
  let parsed :=
    match s with
    | EmptyString => None
    | String c s' =>
        if Ascii.eqb c "+" then option_map Z.of_uint (NilZero.uint_of_string s')
        else option_map Z.of_int (NilZero.int_of_string s)
    end in
  match parsed with
  | Some n => if ((- 2 ^ 63 <=? n) && (n <? 2 ^ 63))%Z then Some n else None
  | None => None
  end.

(** [strconv.Itoa], the text [encoding/json] writes for an integer map key. *)
Definition Itoa (n : Z) : string := NilZero.string_of_int (Z.to_int n).

(** One member of an object stored in a [map[int]T]: the value is decoded
    first; a key that is not an [int] saves an error and sets no entry. *)
Definition int_map_member {T : Type} (zero : T) (dec : decoder T)
    (st : gmap Z T * decodeState) (kv : string * json)
  : gmap Z T * decodeState :=
  let '(t, d1) := dec (snd kv) zero (snd st) in
  match ParseInt (fst kv) with
  | Some n => (<[n := t]> (fst st), d1)
  | None =>
      (fst st, saveError {| Value := String.append "number " (fst kv); GoType := "int" |} d1)
  end.

Definition decode_int_map {T : Type} (ty : string) (zero : T) (dec : decoder T)
  : decoder (option (gmap Z T)) :=
  fun j v d =>
    match j with
    | JNull => (None, d)
    | JObject kvs =>
        let '(m, d') := fold_left (int_map_member zero dec) kvs (default ∅ v, d) in
        (Some m, d')
    | _ => (v, mismatch ty j d)
    end.

(** One member of an object stored in a struct: the key selects a field,
    whose decoder stores the value; a key that names no field is skipped. *)
Definition struct_member {T : Type} (fields : list (string * decoder T))
    (st : T * decodeState) (kv : string * json) : T * decodeState :=
  match lookupField fields (fst kv) with
  | Some f => snd f (snd kv) (fst st) (snd st)
  | None => st
  end.

(** A struct: [null] leaves it as it is, an object stores its members in
    order, anything else is a type error. *)
Definition decode_struct {T : Type} (ty : string) (fields : list (string * decoder T))
  : decoder T :=
  fun j v d =>
    match j with
    | JNull => (v, d)
    | JObject kvs => fold_left (struct_member fields) kvs (v, d)
    | _ => (v, mismatch ty j d)
    end.

(** The decoder of a field: decode into the field's current value and put
    the result back. *)
Definition field {T A : Type} (get : T -> A) (set : A -> T -> T) (dec : decoder A)
  : decoder T :=
  fun j v d => let '(a, d') := dec j (get v) d in (set a v, d').

(** ** The configuration structs *)

Record FieldGeneratorConfig : Type := {
  IsReadOnly : bool;
  ContainsOwnerAccountID : bool
}.

Record UnpackAttributesMapConfig : Type := {
  Fields : option (gmap string FieldGeneratorConfig)
}.

Record ExceptionsConfig : Type := {
  Codes : option (gmap Z string)
}.

Record OperationRenamesConfig : Type := {
  InputFields : option (gmap string string);
  OutputFields : option (gmap string string)
}.

(** [RenamesConfig.Operations]; the projection carries the struct's name
    because [IgnoreSpec] has a field of the same name. *)
Record RenamesConfig : Type := {
  Renames_Operations : option (gmap string (option OperationRenamesConfig))
}.

Record ListOperationConfig : Type := {
  MatchFields : option (list string)
}.

(** The field [UnpackAttributesMapConfig] of the Go struct is the projection
    [UnpackAttributesMap] here: a projection cannot share its type's name. *)
Record ResourceGeneratorConfig : Type := {
  NameField : option string;
  UnpackAttributesMap : option UnpackAttributesMapConfig;
  Exceptions : option ExceptionsConfig;
  Renames : option RenamesConfig;
  ListOperation : option ListOperationConfig
}.

Record IgnoreSpec : Type := {
  Ignore_Operations : option (list string);
  ResourceNames : option (list string);
  ShapeNames : option (list string)
}.

Record GeneratorConfig : Type := {
  Resources : option (gmap string ResourceGeneratorConfig);
  Ignore : IgnoreSpec
}.

(** The zero values: what Go's [T{}] is, every field nil, false or empty. *)
Module Zero.
Definition FieldGeneratorConfig : FieldGeneratorConfig :=
  {| IsReadOnly := false; ContainsOwnerAccountID := false |}.
Definition UnpackAttributesMapConfig : UnpackAttributesMapConfig :=
  {| Fields := None |}.
Definition ExceptionsConfig : ExceptionsConfig := {| Codes := None |}.
Definition OperationRenamesConfig : OperationRenamesConfig :=
  {| InputFields := None; OutputFields := None |}.
Definition RenamesConfig : RenamesConfig := {| Renames_Operations := None |}.
Definition ListOperationConfig : ListOperationConfig := {| MatchFields := None |}.
Definition ResourceGeneratorConfig : ResourceGeneratorConfig :=
  {| NameField := None; UnpackAttributesMap := None; Exceptions := None;
     Renames := None; ListOperation := None |}.
Definition IgnoreSpec : IgnoreSpec :=
  {| Ignore_Operations := None; ResourceNames := None; ShapeNames := None |}.
Definition GeneratorConfig : GeneratorConfig :=
  {| Resources := None; Ignore := IgnoreSpec |}.
End Zero.

(** *** Field updates *)

Definition set_IsReadOnly (b : bool) (v : FieldGeneratorConfig) :=
  {| IsReadOnly := b; ContainsOwnerAccountID := ContainsOwnerAccountID v |}.
Definition set_ContainsOwnerAccountID (b : bool) (v : FieldGeneratorConfig) :=
  {| IsReadOnly := IsReadOnly v; ContainsOwnerAccountID := b |}.
Definition set_Fields (m : option (gmap string FieldGeneratorConfig))
    (_ : UnpackAttributesMapConfig) := {| Fields := m |}.
Definition set_Codes (m : option (gmap Z string)) (_ : ExceptionsConfig) :=
  {| Codes := m |}.
Definition set_InputFields (m : option (gmap string string)) (v : OperationRenamesConfig) :=
  {| InputFields := m; OutputFields := OutputFields v |}.
Definition set_OutputFields (m : option (gmap string string)) (v : OperationRenamesConfig) :=
  {| InputFields := InputFields v; OutputFields := m |}.
Definition set_Renames_Operations (m : option (gmap string (option OperationRenamesConfig)))
    (_ : RenamesConfig) := {| Renames_Operations := m |}.
Definition set_MatchFields (l : option (list string)) (_ : ListOperationConfig) :=
  {| MatchFields := l |}.
Definition set_NameField (x : option string) (v : ResourceGeneratorConfig) :=
  {| NameField := x; UnpackAttributesMap := UnpackAttributesMap v;
     Exceptions := Exceptions v; Renames := Renames v; ListOperation := ListOperation v |}.
Definition set_UnpackAttributesMap (x : option UnpackAttributesMapConfig)
    (v : ResourceGeneratorConfig) :=
  {| NameField := NameField v; UnpackAttributesMap := x;
     Exceptions := Exceptions v; Renames := Renames v; ListOperation := ListOperation v |}.
Definition set_Exceptions (x : option ExceptionsConfig) (v : ResourceGeneratorConfig) :=
  {| NameField := NameField v; UnpackAttributesMap := UnpackAttributesMap v;
     Exceptions := x; Renames := Renames v; ListOperation := ListOperation v |}.
Definition set_Renames (x : option RenamesConfig) (v : ResourceGeneratorConfig) :=
  {| NameField := NameField v; UnpackAttributesMap := UnpackAttributesMap v;
     Exceptions := Exceptions v; Renames := x; ListOperation := ListOperation v |}.
Definition set_ListOperation (x : option ListOperationConfig) (v : ResourceGeneratorConfig) :=
  {| NameField := NameField v; UnpackAttributesMap := UnpackAttributesMap v;
     Exceptions := Exceptions v; Renames := Renames v; ListOperation := x |}.
Definition set_Ignore_Operations (l : option (list string)) (v : IgnoreSpec) :=
  {| Ignore_Operations := l; ResourceNames := ResourceNames v; ShapeNames := ShapeNames v |}.
Definition set_ResourceNames (l : option (list string)) (v : IgnoreSpec) :=
  {| Ignore_Operations := Ignore_Operations v; ResourceNames := l; ShapeNames := ShapeNames v |}.
Definition set_ShapeNames (l : option (list string)) (v : IgnoreSpec) :=
  {| Ignore_Operations := Ignore_Operations v; ResourceNames := ResourceNames v; ShapeNames := l |}.
Definition set_Resources (m : option (gmap string ResourceGeneratorConfig))
    (v : GeneratorConfig) := {| Resources := m; Ignore := Ignore v |}.
Definition set_Ignore (x : IgnoreSpec) (v : GeneratorConfig) :=
  {| Resources := Resources v; Ignore := x |}.

(** ** The schema: one decoder per struct, from its [json] tags *)

Definition decode_strings : decoder (option (list string)) :=
  decode_slice "[]string" "" decode_string.

Definition decode_string_map : decoder (option (gmap string string)) :=
  decode_map "map[string]string" "" decode_string.

Definition FieldGeneratorConfig_fields : list (string * decoder FieldGeneratorConfig) :=
  [ ("is_read_only", field IsReadOnly set_IsReadOnly decode_bool);
    ("contains_owner_account_id",
      field ContainsOwnerAccountID set_ContainsOwnerAccountID decode_bool) ].

Definition decode_FieldGeneratorConfig : decoder FieldGeneratorConfig :=
  decode_struct "model.FieldGeneratorConfig" FieldGeneratorConfig_fields.

(** The map behind [UnpackAttributesMapConfig.Fields]. *)
Definition decode_Fields : decoder (option (gmap string FieldGeneratorConfig)) :=
  decode_map "map[string]model.FieldGeneratorConfig"
    Zero.FieldGeneratorConfig decode_FieldGeneratorConfig.

Definition UnpackAttributesMapConfig_fields : list (string * decoder UnpackAttributesMapConfig) :=
  [ ("fields", field Fields set_Fields decode_Fields) ].

Definition decode_UnpackAttributesMapConfig : decoder UnpackAttributesMapConfig :=
  decode_struct "model.UnpackAttributesMapConfig" UnpackAttributesMapConfig_fields.

(** The map behind [ExceptionsConfig.Codes]. *)
Definition decode_Codes : decoder (option (gmap Z string)) :=
  decode_int_map "map[int]string" "" decode_string.

Definition ExceptionsConfig_fields : list (string * decoder ExceptionsConfig) :=
  [ ("codes", field Codes set_Codes decode_Codes) ].

Definition decode_ExceptionsConfig : decoder ExceptionsConfig :=
  decode_struct "model.ExceptionsConfig" ExceptionsConfig_fields.

Definition OperationRenamesConfig_fields : list (string * decoder OperationRenamesConfig) :=
  [ ("input_fields", field InputFields set_InputFields decode_string_map);
    ("output_fields", field OutputFields set_OutputFields decode_string_map) ].

Definition decode_OperationRenamesConfig : decoder OperationRenamesConfig :=
  decode_struct "model.OperationRenamesConfig" OperationRenamesConfig_fields.

(** An element of [RenamesConfig.Operations]: a pointer. *)
Definition decode_OperationRenames : decoder (option OperationRenamesConfig) :=
  decode_ptr Zero.OperationRenamesConfig decode_OperationRenamesConfig.

(** The map behind [RenamesConfig.Operations]. *)
Definition decode_Operations : decoder (option (gmap string (option OperationRenamesConfig))) :=
  decode_map "map[string]*model.OperationRenamesConfig" None decode_OperationRenames.

Definition RenamesConfig_fields : list (string * decoder RenamesConfig) :=
  [ ("operations", field Renames_Operations set_Renames_Operations decode_Operations) ].

Definition decode_RenamesConfig : decoder RenamesConfig :=
  decode_struct "model.RenamesConfig" RenamesConfig_fields.

Definition ListOperationConfig_fields : list (string * decoder ListOperationConfig) :=
  [ ("match_fields", field MatchFields set_MatchFields decode_strings) ].

Definition decode_ListOperationConfig : decoder ListOperationConfig :=
  decode_struct "model.ListOperationConfig" ListOperationConfig_fields.

Definition ResourceGeneratorConfig_fields : list (string * decoder ResourceGeneratorConfig) :=
  [ ("name_field", field NameField set_NameField (decode_ptr "" decode_string));
    ("unpack_attributes_map", field UnpackAttributesMap set_UnpackAttributesMap
       (decode_ptr Zero.UnpackAttributesMapConfig decode_UnpackAttributesMapConfig));
    ("exceptions", field Exceptions set_Exceptions
       (decode_ptr Zero.ExceptionsConfig decode_ExceptionsConfig));
    ("renames", field Renames set_Renames
       (decode_ptr Zero.RenamesConfig decode_RenamesConfig));
    ("list_operation", field ListOperation set_ListOperation
       (decode_ptr Zero.ListOperationConfig decode_ListOperationConfig)) ].

Definition decode_ResourceGeneratorConfig : decoder ResourceGeneratorConfig :=
  decode_struct "model.ResourceGeneratorConfig" ResourceGeneratorConfig_fields.

Definition IgnoreSpec_fields : list (string * decoder IgnoreSpec) :=
  [ ("operations", field Ignore_Operations set_Ignore_Operations decode_strings);
    ("resource_names", field ResourceNames set_ResourceNames decode_strings);
    ("shape_names", field ShapeNames set_ShapeNames decode_strings) ].

Definition decode_IgnoreSpec : decoder IgnoreSpec :=
  decode_struct "model.IgnoreSpec" IgnoreSpec_fields.

(** The map behind [GeneratorConfig.Resources]. *)
Definition decode_Resources : decoder (option (gmap string ResourceGeneratorConfig)) :=
  decode_map "map[string]model.ResourceGeneratorConfig"
    Zero.ResourceGeneratorConfig decode_ResourceGeneratorConfig.

Definition GeneratorConfig_fields : list (string * decoder GeneratorConfig) :=
  [ ("resources", field Resources set_Resources decode_Resources);
    ("ignore", field Ignore set_Ignore decode_IgnoreSpec) ].

Definition decode_GeneratorConfig : decoder GeneratorConfig :=
  decode_struct "model.GeneratorConfig" GeneratorConfig_fields.

(** The decoding pass of [json.Unmarshal]: the struct is filled in place and
    the saved error, if any, is returned. *)
Definition decode_document (j : json) (gc : GeneratorConfig)
  : GeneratorConfig * option UnmarshalTypeError :=
  decode_GeneratorConfig j gc None.

(** [json.Unmarshal(data, &gc)] on a document that is already a tree.  The
    document is first scanned ([checkValid]): one nested deeper than
    [maxNestingDepth] is refused with a syntax error and nothing is decoded,
    wherever the nesting is, also under a key no field has.  Then it is
    decoded. *)
Definition json_Unmarshal (j : json) (gc : GeneratorConfig)
  : GeneratorConfig * option jsonError :=
  if (maxNestingDepth <? json_depth j)%N
  then (gc, Some (JSyntaxError "exceeded max depth"))
  else
    let '(gc', e) := decode_document j gc in
    (gc', option_map JTypeError e).

(** ** The loader *)

Section Loader.
(** What the operating system and the YAML reader report on failure. *)
Variables IOE YE : Type.

(** [ioutil.ReadFile]. *)
Variable ReadFile : string -> result IOE string.

(** The first half of [yaml.Unmarshal]: the YAML text as the JSON document
    that is given to [encoding/json], or a conversion error. *)
Variable yamlToJSON : string -> result YE json.

(** [yaml.Unmarshal(contents, &gc)]. *)
Definition yaml_Unmarshal (contents : string) (gc : GeneratorConfig)
  : GeneratorConfig * option (error IOE YE) :=
  match yamlToJSON contents with
  | Err e => (gc, Some (ConvertError e))
  | Ok j =>
      match json_Unmarshal j gc with
      | (gc', None) => (gc', None)
      | (gc', Some (JTypeError e)) => (gc', Some (UnmarshalError e))
      | (gc', Some (JSyntaxError msg)) => (gc', Some (SyntaxError msg))
      end
  end.

(** [NewGeneratorConfig]: the Go pair of a config pointer and an error,
    each [None] when nil. *)
Definition NewGeneratorConfig (configPath : string)
  : option GeneratorConfig * option (error IOE YE) :=
  let gc := Zero.GeneratorConfig in
  match ReadFile configPath with
  | Err err => (None, Some (IOError err))
  | Ok contents =>
      match yaml_Unmarshal contents gc with
      | (_, Some err) => (None, Some err)
      | (gc', None) => (Some gc', None)
      end
  end.
End Loader.

Arguments yaml_Unmarshal {IOE YE} yamlToJSON contents gc.
Arguments NewGeneratorConfig {IOE YE} ReadFile yamlToJSON configPath.

(** ** Reading documents: members, keys, well-typedness *)

(** The value the last member with key [k] gives, as a map sees it. *)
Fixpoint last_binding (k : string) (kvs : list (string * json)) : option json :=
  match kvs with
  | [] => None
  | kv :: rest =>
      match last_binding k rest with
      | Some x => Some x
      | None => if String.eqb (fst kv) k then Some (snd kv) else None
      end
  end.

Definition object_members (j : json) : list (string * json) :=
  match j with
  | JObject kvs => kvs
  | _ => []
  end.

(** The values of the members whose key the decoder resolves to the field
    tagged [name]. *)
Definition members_naming {T : Type} (fields : list (string * T)) (name : string)
    (kvs : list (string * json)) : list json :=
  List.map snd (List.filter (fun kv => names fields (fst kv) name) kvs).

(** The key of the field tagged [name] is missing from an object. *)
Definition absent {T : Type} (fields : list (string * T)) (name : string)
    (kvs : list (string * json)) : bool :=
  forallb (fun kv => negb (names fields (fst kv) name)) kvs.

(** The key is present and every member that gives it has a value
    accepted by [p]. *)
Definition present_with {T : Type} (fields : list (string * T)) (name : string)
    (p : json -> bool) (kvs : list (string * json)) : bool :=
  existsb (fun kv => names fields (fst kv) name) kvs
  && forallb (fun kv => implb (names fields (fst kv) name) (p (snd kv))) kvs.

Definition is_empty_object (j : json) : bool :=
  match j with
  | JObject [] => true
  | _ => false
  end.

Definition is_empty_string (j : json) : bool :=
  match j with
  | JString EmptyString => true
  | _ => false
  end.

Definition is_digit (c : ascii) : bool :=
  let n := N_of_ascii c in (48 <=? n)%N && (n <=? 57)%N.

Fixpoint all_digits (s : string) : bool :=
  match s with
  | EmptyString => true
  | String c r => is_digit c && all_digits r
  end.

(** A key that is written as an integer: an optional sign and at least one
    decimal digit. *)
Definition decimal_integer (s : string) : bool :=
  match s with
  | EmptyString => false
  | String c r =>
      if (Ascii.eqb c "+" || Ascii.eqb c "-")%bool
      then negb (String.eqb r "") && all_digits r
      else all_digits s
  end.

(** Some resource of the document has, under [exceptions], a [codes] table
    with a key that is not an integer. *)
Definition resource_has_non_integer_code (r : json) : bool :=
  existsb (fun ex =>
    existsb (fun cs =>
      existsb (fun c => negb (decimal_integer (fst c))) (object_members cs))
      (members_naming ExceptionsConfig_fields "codes" (object_members ex)))
    (members_naming ResourceGeneratorConfig_fields "exceptions" (object_members r)).

Definition has_non_integer_code (doc : json) : bool :=
  existsb (fun rs =>
    existsb (fun r => resource_has_non_integer_code (snd r)) (object_members rs))
    (members_naming GeneratorConfig_fields "resources" (object_members doc)).

(** *** Type-well-formed documents

    A document is type-well-formed when every value under a key the schema
    knows has the JSON type of its field, or is [null]; values under other
    keys are not looked at. *)
Definition checker : Type := json -> bool.

Definition wt_string : checker := fun j =>
  match j with JNull | JString _ => true | _ => false end.

Definition wt_bool : checker := fun j =>
  match j with JNull | JBool _ => true | _ => false end.

Definition wt_slice (c : checker) : checker := fun j =>
  match j with
  | JNull => true
  | JArray xs => forallb c xs
  | _ => false
  end.

Definition wt_map (c : checker) : checker := fun j =>
  match j with
  | JNull => true
  | JObject kvs => forallb (fun kv => c (snd kv)) kvs
  | _ => false
  end.

Definition wt_int_map (c : checker) : checker := fun j =>
  match j with
  | JNull => true
  | JObject kvs =>
      forallb (fun kv => c (snd kv) && bool_decide (is_Some (ParseInt (fst kv)))) kvs
  | _ => false
  end.

Definition wt_member (fields : list (string * checker)) (kv : string * json) : bool :=
  match lookupField fields (fst kv) with
  | Some f => snd f (snd kv)
  | None => true
  end.

Definition wt_struct (fields : list (string * checker)) : checker := fun j =>
  match j with
  | JNull => true
  | JObject kvs => forallb (wt_member fields) kvs
  | _ => false
  end.

Definition FieldGeneratorConfig_types : list (string * checker) :=
  [ ("is_read_only", wt_bool); ("contains_owner_account_id", wt_bool) ].
Definition UnpackAttributesMapConfig_types : list (string * checker) :=
  [ ("fields", wt_map (wt_struct FieldGeneratorConfig_types)) ].
Definition ExceptionsConfig_types : list (string * checker) :=
  [ ("codes", wt_int_map wt_string) ].
Definition OperationRenamesConfig_types : list (string * checker) :=
  [ ("input_fields", wt_map wt_string); ("output_fields", wt_map wt_string) ].
Definition RenamesConfig_types : list (string * checker) :=
  [ ("operations", wt_map (wt_struct OperationRenamesConfig_types)) ].
Definition ListOperationConfig_types : list (string * checker) :=
  [ ("match_fields", wt_slice wt_string) ].
Definition ResourceGeneratorConfig_types : list (string * checker) :=
  [ ("name_field", wt_string);
    ("unpack_attributes_map", wt_struct UnpackAttributesMapConfig_types);
    ("exceptions", wt_struct ExceptionsConfig_types);
    ("renames", wt_struct RenamesConfig_types);
    ("list_operation", wt_struct ListOperationConfig_types) ].
Definition IgnoreSpec_types : list (string * checker) :=
  [ ("operations", wt_slice wt_string);
    ("resource_names", wt_slice wt_string);
    ("shape_names", wt_slice wt_string) ].
Definition GeneratorConfig_types : list (string * checker) :=
  [ ("resources", wt_map (wt_struct ResourceGeneratorConfig_types));
    ("ignore", wt_struct IgnoreSpec_types) ].

Definition well_typed : checker := wt_struct GeneratorConfig_types.

(** *** Removing the keys the schema does not know

    [strip_unknown doc] is [doc] without the members, at the top level and
    inside every sub-config object, whose key names no field. *)
Definition stripper : Type := json -> json.

Definition strip_map (s : stripper) : stripper := fun j =>
  match j with
  | JObject kvs => JObject (List.map (fun kv => (fst kv, s (snd kv))) kvs)
  | _ => j
  end.

Definition strip_member (fields : list (string * stripper)) (kv : string * json)
  : list (string * json) :=
  match lookupField fields (fst kv) with
  | Some f => [ (fst kv, snd f (snd kv)) ]
  | None => []
  end.

Definition strip_struct (fields : list (string * stripper)) : stripper := fun j =>
  match j with
  | JObject kvs => JObject (flat_map (strip_member fields) kvs)
  | _ => j
  end.

Definition keep : stripper := fun j => j.

Definition FieldGeneratorConfig_strip : list (string * stripper) :=
  [ ("is_read_only", keep); ("contains_owner_account_id", keep) ].
Definition UnpackAttributesMapConfig_strip : list (string * stripper) :=
  [ ("fields", strip_map (strip_struct FieldGeneratorConfig_strip)) ].
Definition ExceptionsConfig_strip : list (string * stripper) :=
  [ ("codes", keep) ].
Definition OperationRenamesConfig_strip : list (string * stripper) :=
  [ ("input_fields", keep); ("output_fields", keep) ].
Definition RenamesConfig_strip : list (string * stripper) :=
  [ ("operations", strip_map (strip_struct OperationRenamesConfig_strip)) ].
Definition ListOperationConfig_strip : list (string * stripper) :=
  [ ("match_fields", keep) ].
Definition ResourceGeneratorConfig_strip : list (string * stripper) :=
  [ ("name_field", keep);
    ("unpack_attributes_map", strip_struct UnpackAttributesMapConfig_strip);
    ("exceptions", strip_struct ExceptionsConfig_strip);
    ("renames", strip_struct RenamesConfig_strip);
    ("list_operation", strip_struct ListOperationConfig_strip) ].
Definition IgnoreSpec_strip : list (string * stripper) :=
  [ ("operations", keep); ("resource_names", keep); ("shape_names", keep) ].
Definition GeneratorConfig_strip : list (string * stripper) :=
  [ ("resources", strip_map (strip_struct ResourceGeneratorConfig_strip));
    ("ignore", strip_struct IgnoreSpec_strip) ].

Definition strip_unknown : stripper := strip_struct GeneratorConfig_strip.

(** ** Serializing a configuration *)

(** The lead bytes of UTF-8 as [unicode/utf8] classifies them: the number
    of bytes that follow the lead byte, and the range the first of them
    must be in.  The bytes after that one are in 128..191. *)
Definition utf8_lead (b : N) : option (nat * N * N) :=
  if (b <? 128)%N then Some (0%nat, 0%N, 0%N)
  else if (b <? 194)%N then None
  else if (b <? 224)%N then Some (1%nat, 128%N, 191%N)
  else if (b =? 224)%N then Some (2%nat, 160%N, 191%N)
  else if (b =? 237)%N then Some (2%nat, 128%N, 159%N)
  else if (b <? 240)%N then Some (2%nat, 128%N, 191%N)
  else if (b =? 240)%N then Some (3%nat, 144%N, 191%N)
  else if (b <? 244)%N then Some (3%nat, 128%N, 191%N)
  else if (b =? 244)%N then Some (3%nat, 128%N, 143%N)
  else None.

Definition within (lo hi : N) (c : ascii) : bool :=
  ((lo <=? N_of_ascii c) && (N_of_ascii c <=? hi))%N.

(** U+FFFD, the replacement character, in UTF-8. *)
Definition RuneError (s : string) : string :=
  String "239" (String "191" (String "189" s)).

(** A string as [encoding/json] writes it and a reader of the text gets it
    back: a byte that does not begin a well-formed UTF-8 sequence is written
    as U+FFFD, everything else is kept (escapes are undone by the reader). *)
Fixpoint utf8_coerce (s : string) : string :=
  match s with
  | EmptyString => EmptyString
  | String c s1 =>
      match utf8_lead (N_of_ascii c) with
      | Some (0%nat, _, _) => String c (utf8_coerce s1)
      | Some (1%nat, lo, hi) =>
          match s1 with
          | String c1 s2 =>
              if within lo hi c1
              then String c (String c1 (utf8_coerce s2))
              else RuneError (utf8_coerce s1)
          | _ => RuneError (utf8_coerce s1)
          end
      | Some (2%nat, lo, hi) =>
          match s1 with
          | String c1 (String c2 s3) =>
              if within lo hi c1 && within 128 191 c2
              then String c (String c1 (String c2 (utf8_coerce s3)))
              else RuneError (utf8_coerce s1)
          | _ => RuneError (utf8_coerce s1)
          end
      | Some (3%nat, lo, hi) =>
          match s1 with
          | String c1 (String c2 (String c3 s4)) =>
              if within lo hi c1 && within 128 191 c2 && within 128 191 c3
              then String c (String c1 (String c2 (String c3 (utf8_coerce s4))))
              else RuneError (utf8_coerce s1)
          | _ => RuneError (utf8_coerce s1)
          end
      | _ => RuneError (utf8_coerce s1)
      end
  end.

(** The order [encoding/json] writes the members of a map in: by key,
    byte after byte. *)
Definition key_le {T : Type} (a b : string * T) : Prop :=
  String.leb (fst a) (fst b) = true.

#[global] Instance key_le_dec {T : Type} (a b : string * T) : Decision (key_le a b) :=
  decide (String.leb (fst a) (fst b) = true).

(** The members of a map: the keys are turned into strings by [key], the
    members sorted by these, and keys and values written. *)
Definition encode_members {K T : Type} (key : K -> string) (enc : T -> json)
    (l : list (K * T)) : list (string * json) :=
  List.map (fun kv => (utf8_coerce (fst kv), enc (snd kv)))
    (merge_sort key_le (List.map (fun kv => (key (fst kv), snd kv)) l)).

(** [omitempty] on a pointer field: a nil pointer gives no member. *)
Definition omitempty {T : Type} (name : string) (enc : T -> json) (p : option T)
  : list (string * json) :=
  match p with
  | None => []
  | Some t => [ (name, enc t) ]
  end.

Definition encode_string (s : string) : json := JString (utf8_coerce s).

Definition encode_strings (l : option (list string)) : json :=
  match l with
  | None => JNull
  | Some xs => JArray (List.map encode_string xs)
  end.

Definition encode_map {T : Type} (enc : T -> json) (m : option (gmap string T)) : json :=
  match m with
  | None => JNull
  | Some m => JObject (encode_members (fun k => k) enc (map_to_list m))
  end.

Definition encode_int_map {T : Type} (enc : T -> json) (m : option (gmap Z T)) : json :=
  match m with
  | None => JNull
  | Some m => JObject (encode_members Itoa enc (map_to_list m))
  end.

Definition encode_ptr {T : Type} (enc : T -> json) (p : option T) : json :=
  match p with
  | None => JNull
  | Some t => enc t
  end.

Definition encode_FieldGeneratorConfig (v : FieldGeneratorConfig) : json :=
  JObject [ ("is_read_only", JBool (IsReadOnly v));
            ("contains_owner_account_id", JBool (ContainsOwnerAccountID v)) ].

Definition encode_UnpackAttributesMapConfig (v : UnpackAttributesMapConfig) : json :=
  JObject [ ("fields", encode_map encode_FieldGeneratorConfig (Fields v)) ].

Definition encode_ExceptionsConfig (v : ExceptionsConfig) : json :=
  JObject [ ("codes", encode_int_map encode_string (Codes v)) ].

Definition encode_OperationRenamesConfig (v : OperationRenamesConfig) : json :=
  JObject [ ("input_fields", encode_map encode_string (InputFields v));
            ("output_fields", encode_map encode_string (OutputFields v)) ].

Definition encode_RenamesConfig (v : RenamesConfig) : json :=
  JObject [ ("operations",
             encode_map (encode_ptr encode_OperationRenamesConfig) (Renames_Operations v)) ].

Definition encode_ListOperationConfig (v : ListOperationConfig) : json :=
  JObject [ ("match_fields", encode_strings (MatchFields v)) ].

Definition encode_ResourceGeneratorConfig (v : ResourceGeneratorConfig) : json :=
  JObject (omitempty "name_field" encode_string (NameField v)
           ++ omitempty "unpack_attributes_map" encode_UnpackAttributesMapConfig
                (UnpackAttributesMap v)
           ++ omitempty "exceptions" encode_ExceptionsConfig (Exceptions v)
           ++ omitempty "renames" encode_RenamesConfig (Renames v)
           ++ omitempty "list_operation" encode_ListOperationConfig (ListOperation v)).

Definition encode_IgnoreSpec (v : IgnoreSpec) : json :=
  JObject [ ("operations", encode_strings (Ignore_Operations v));
            ("resource_names", encode_strings (ResourceNames v));
            ("shape_names", encode_strings (ShapeNames v)) ].

(** Modelled from the spec: the serializer of the round-trip law.  The
    repository has no function that writes a configuration; the document
    written here has the keys of section 6 of the specification, which are
    the [json] tags of the structs, and follows [encoding/json.Marshal] for
    them: a nil map or slice is [null], a nil pointer tagged [omitempty] is
    left out, an integer map key is written in decimal, the members of a
    map are sorted by key, and every string, key or value, is made valid
    UTF-8 by [utf8_coerce]. *)
Definition json_Marshal (gc : GeneratorConfig) : json :=
  JObject [ ("resources", encode_map encode_ResourceGeneratorConfig (Resources gc));
            ("ignore", encode_IgnoreSpec (Ignore gc)) ].
















(** ** Sample documents and collaborators *)

Module Sample.
Inductive errno : Type := ENOENT | EACCES.

(** A disk given by the files it holds. *)
Definition ReadFile (files : list (string * string)) (path : string)
  : result errno string :=
  match List.find (fun f => String.eqb (fst f) path) files with
  | Some f => Ok (snd f)
  | None => Err ENOENT
  end.

(** The conversion of YAML to JSON on the texts of a table; any other text
    is reported as malformed. *)
Definition yamlToJSON (table : list (string * json)) (contents : string)
  : result string json :=
  match List.find (fun f => String.eqb (fst f) contents) table with
  | Some f => Ok (snd f)
  | None => Err "yaml: did not find expected node content"
  end.

(** An SNS-like resource with two owner-account-id attributes and a
    many-to-one rename, under a resource name no API has. *)
Definition unchecked : json :=
  JObject
    [ ("resources", JObject
        [ ("NoSuchResource", JObject
            [ ("unpack_attributes_map", JObject
                [ ("fields", JObject
                    [ ("Owner", JObject [ ("contains_owner_account_id", JBool true) ]);
                      ("Creator", JObject [ ("contains_owner_account_id", JBool true) ]) ]) ]);
              ("renames", JObject
                [ ("operations", JObject
                    [ ("CreateTopic", JObject
                        [ ("input_fields", JObject
                            [ ("Name", JString "TopicName");
                              ("Title", JString "TopicName") ]) ]) ]) ]) ]) ]) ].

(** The same wire field renamed differently for two operations. *)
Definition two_renames : list (string * json) :=
  [ ("CreateTopic", JObject [ ("input_fields", JObject [ ("Name", JString "TopicName") ]) ]);
    ("CreateQueue", JObject [ ("input_fields", JObject [ ("Name", JString "QueueName") ]) ]) ].

(** A [codes] table with a key that is not an integer. *)
Definition bad_codes : json :=
  JObject
    [ ("resources", JObject
        [ ("Topic", JObject
            [ ("exceptions", JObject
                [ ("codes", JObject [ ("not_found", JString "NotFoundException") ]) ]) ]) ]) ].

(** A document with keys the schema does not know, at three levels. *)
Definition with_extras : json :=
  JObject
    [ ("version", JNumber "2");
      ("resources", JObject
        [ ("Topic", JObject
            [ ("name_field", JString "Name");
              ("comment", JArray [ JString "to be reviewed" ]);
              ("exceptions", JObject
                [ ("codes", JObject [ ("404", JString "NotFoundException") ]);
                  ("retry", JBool true) ]) ]) ]);
      ("ignore", JObject [ ("shape_names", JArray [ JString "Tag" ]);
                           ("reason", JString "unused") ]) ].

(** A resource override with [exceptions] present and empty, and the other
    optional keys left out. *)
Definition empty_exceptions : list (string * json) :=
  [ ("exceptions", JObject []) ].

Definition attributes : list (string * json) :=
  [ ("DisplayName", JObject []);
    ("TopicArn", JObject [ ("is_read_only", JBool true) ]) ].

(** A populated configuration.  The resource name to ignore begins with a
    character of two bytes (195, 169). *)
Definition populated : GeneratorConfig :=
  {| Resources := Some
       {[ "Topic" :=
            {| NameField := Some "Name";
               UnpackAttributesMap := Some
                 {| Fields := Some
                      {[ "Owner" := {| IsReadOnly := true; ContainsOwnerAccountID := true |};
                         "DisplayName" :=
                           {| IsReadOnly := false; ContainsOwnerAccountID := false |} ]} |};
               Exceptions := Some {| Codes := Some {[ 404%Z := "NotFoundException" ]} |};
               Renames := Some
                 {| Renames_Operations := Some
                      {[ "CreateTopic" := Some
                           {| InputFields := Some {[ "Name" := "TopicName" ]};
                              OutputFields := None |} ]} |};
               ListOperation := Some {| MatchFields := Some [ "Name" ] |} |} ]};
     Ignore := {| Ignore_Operations := Some [ "DeleteTopic" ];
                  ResourceNames := Some [ String "195" (String "169" "t") ];
                  ShapeNames := Some [] |} |}.

Definition files : list (string * string) :=
  [ ("empty.yaml", "");
    ("unchecked.yaml", "unchecked");
    ("bad_codes.yaml", "bad_codes");
    ("extras.yaml", "with_extras");
    ("plain.yaml", "without_extras");
    ("populated.yaml", "populated") ].

Definition table : list (string * json) :=
  [ ("", JNull);
    ("unchecked", unchecked);
    ("bad_codes", bad_codes);
    ("with_extras", with_extras);
    ("without_extras", strip_unknown with_extras);
    ("populated", json_Marshal populated) ].
End Sample.

(** A document that is type-well-formed and nested too deep: ten thousand
    arrays, one inside the other, under a key the schema does not know. *)
Module Nesting.
Definition deep : json :=
  JObject [ ("notes", N.iter 10000 (fun j => JArray [ j ]) JNull) ].

Definition files : list (string * string) :=
  [ ("deep.yaml", "deep"); ("plain.yaml", "plain") ].

Definition table : list (string * json) :=
  [ ("deep", deep); ("plain", strip_unknown deep) ].
End Nesting.

(** A configuration with a string that is not UTF-8: the single byte 255
    as an operation to ignore. *)
Module Coerced.
Definition raw : GeneratorConfig :=
  {| Resources := None;
     Ignore := {| Ignore_Operations := Some [ String "255" "" ];
                  ResourceNames := None;
                  ShapeNames := None |} |}.

Definition files : list (string * string) := [ ("raw.yaml", "raw") ].

Definition table : list (string * json) := [ ("raw", json_Marshal raw) ].
End Coerced.

(** ** Properties of decoders *)

(** The error state after a step that starts with [d] and would save [e]. *)
Definition orElse (d e : decodeState) : decodeState :=
  match d with
  | Some _ => d
  | None => e
  end.

(** The saved error only passes through a decoder: the value decoded does
    not depend on it, and an error already saved stays. *)
Definition factors {T : Type} (dec : decoder T) : Prop :=
  forall j v d, dec j v d = (fst (dec j v None), orElse d (snd (dec j v None))).

(** [c] accepts exactly the values [dec] stores without a type error. *)
Definition exact {T : Type} (c : checker) (dec : decoder T) : Prop :=
  forall x v, snd (dec x v None) = None <-> c x = true.

(** [s] does not nest a document deeper. *)
Definition shrinks (s : stripper) : Prop :=
  forall x, (json_depth (s x) <= json_depth x)%N.

(** [dec] does not see what [s] removes. *)
Definition blind {T : Type} (s : stripper) (dec : decoder T) : Prop :=
  (forall x v d, dec (s x) v d = dec x v d) /\ (forall x, s x = JNull <-> x = JNull).

(** Two field tables of one struct: the same tags in the same order, and
    [R] between the entries of each tag. *)
Definition same_tags {T U : Type} (R : T -> U -> Prop)
    (l1 : list (string * T)) (l2 : list (string * U)) : Prop :=
  Forall2 (fun a b => fst a = fst b /\ R (snd a) (snd b)) l1 l2.

(** A pointer field holds nil or a pointer to the zero value. *)
Definition nil_or_zero {A : Type} (zero : A) (p : option A) : Prop :=
  p = None \/ p = Some zero.

(** The two tables of renames of an operation: [InputFields] under the key
    [input_fields], [OutputFields] under the key [output_fields]. *)
Inductive direction : Type := Input | Output.

Definition direction_tag (s : direction) : string :=
  match s with
  | Input => "input_fields"
  | Output => "output_fields"
  end.

Definition direction_field (s : direction) (o : OperationRenamesConfig)
  : option (gmap string string) :=
  match s with
  | Input => InputFields o
  | Output => OutputFields o
  end.

(** The name the loaded entry [c] of an operation gives to the field [f]. *)
Definition renamed (s : direction) (c : option OperationRenamesConfig) (f : string)
  : option string :=
  match c with
  | Some o =>
      match direction_field s o with
      | Some m => m !! f
      | None => None
      end
  | None => None
  end.

(** In a document: the object [j] gives the key [f] the string [x]. *)
Definition binds (f x : string) (j : json) : bool :=
  match j with
  | JObject fs =>
      match last_binding f fs with
      | Some (JString y) => String.eqb y x
      | _ => false
      end
  | _ => false
  end.

(** In a document: the table [t] of one operation renames the field [f] to
    [x]: it is an object with a member for the key of the direction, and
    each such member gives [f] the string [x]. *)
Definition renames (s : direction) (f x : string) (t : json) : bool :=
  match t with
  | JObject members =>
      present_with OperationRenamesConfig_fields (direction_tag s) (binds f x) members
  | _ => false
  end.

(** What one attribute's entry says when it is read on its own. *)
Definition own_field (entry : json) : FieldGeneratorConfig :=
  fst (decode_FieldGeneratorConfig entry Zero.FieldGeneratorConfig None).

(** ** Further readings of a document *)

Definition is_null (j : json) : bool :=
  match j with
  | JNull => true
  | _ => false
  end.

Definition is_empty_array (j : json) : bool :=
  match j with
  | JArray [] => true
  | _ => false
  end.

(** What one resource override says when it is read on its own. *)
Definition own_resource (override : json) : ResourceGeneratorConfig :=
  fst (decode_ResourceGeneratorConfig override Zero.ResourceGeneratorConfig None).

(** The value of the last member whose key is a way of writing the [int]
    [n], as a [map[int]T] sees it. *)
Fixpoint last_int_binding (n : Z) (kvs : list (string * json)) : option json :=
  match kvs with
  | [] => None
  | kv :: rest =>
      match last_int_binding n rest with
      | Some x => Some x
      | None => if bool_decide (ParseInt (fst kv) = Some n) then Some (snd kv) else None
      end
  end.

(** A map field holds the nil map or the empty map. *)
Definition nil_or_empty {K : Type} `{Countable K} {V : Type}
    (p : option (gmap K V)) : Prop :=
  p = None \/ p = Some ∅.

(** The lower-case form of an ASCII letter, any other byte as it is: the
    letter whose code with bit 5 cleared is that of an upper-case letter. *)
Definition lower (c : ascii) : ascii :=
  let u := N.land (N_of_ascii c) caseMask in
  if isUpperLetter u then ascii_of_N (N.lor u 32) else c.

Fixpoint lowercase (s : string) : string :=
  match s with
  | EmptyString => EmptyString
  | String c r => String (lower c) (lowercase r)
  end.

Fixpoint is_ascii (s : string) : bool :=
  match s with
  | EmptyString => true
  | String c r => (N_of_ascii c <? 128)%N && is_ascii r
  end.

(** * Properties *)

(** ** The saved error *)

Lemma saveError_orElse e d : saveError e d = orElse d (Some e).
Proof. by destruct d. Qed.

Lemma orElse_assoc d e f : orElse (orElse d e) f = orElse d (orElse e f).
Proof. by destruct d. Qed.

Lemma orElse_None_r d : orElse d None = d.
Proof. by destruct d. Qed.

Lemma orElse_None d e : orElse d e = None <-> d = None /\ e = None.
Proof.
  destruct d; simpl; split; intros H; try discriminate;
    try (by destruct H); by split.
Qed.

Lemma factors_fst {T} (dec : decoder T) j v d :
  factors dec -> fst (dec j v d) = fst (dec j v None).
Proof. intros H. by rewrite (H j v d). Qed.

Lemma factors_snd {T} (dec : decoder T) j v d :
  factors dec -> snd (dec j v d) = orElse d (snd (dec j v None)).
Proof. intros H. by rewrite (H j v d). Qed.

Lemma factors_string : factors decode_string.
Proof. intros j v d. by destruct j, d. Qed.

Lemma factors_bool : factors decode_bool.
Proof. intros j v d. by destruct j, d. Qed.

Lemma factors_ptr {T} (zero : T) dec : factors dec -> factors (decode_ptr zero dec).
Proof.
  intros H j v d. unfold decode_ptr.
  destruct j; try (by destruct d);
    match goal with |- context [dec ?x ?y d] => rewrite (H x y d) end;
    by match goal with |- context [dec ?x ?y None] => destruct (dec x y None) end.
Qed.

Lemma factors_elems {T} (zero : T) dec xs :
  factors dec ->
  forall old d,
    decode_elems zero dec xs old d
    = (fst (decode_elems zero dec xs old None),
       orElse d (snd (decode_elems zero dec xs old None))).
Proof.
  intros H. induction xs as [|x xs IH]; intros old d; simpl.
  - by rewrite orElse_None_r.
  - rewrite (H x (hd zero old) d).
    destruct (dec x (hd zero old) None) as [t e]. simpl.
    rewrite (IH (tl old) (orElse d e)), (IH (tl old) e).
    destruct (decode_elems zero dec xs (tl old) None) as [ts e']. simpl.
    by rewrite orElse_assoc.
Qed.

Lemma factors_slice {T} ty (zero : T) dec :
  factors dec -> factors (decode_slice ty zero dec).
Proof.
  intros H j v d. unfold decode_slice.
  destruct j; try (by destruct d).
  rewrite (factors_elems zero dec xs H (default [] v) d).
  by destruct (decode_elems zero dec xs (default [] v) None).
Qed.

(** A fold of member steps factors when each step does. *)
Lemma fold_factors {S : Type} (step : S * decodeState -> string * json -> S * decodeState) :
  (forall s d kv,
     step (s, d) kv = (fst (step (s, None) kv), orElse d (snd (step (s, None) kv)))) ->
  forall kvs s d,
    fold_left step kvs (s, d)
    = (fst (fold_left step kvs (s, None)),
       orElse d (snd (fold_left step kvs (s, None)))).
Proof.
  intros H. induction kvs as [|kv kvs IH]; intros s d; simpl.
  - by rewrite orElse_None_r.
  - rewrite (H s d kv).
    destruct (step (s, None) kv) as [s1 e1]. simpl.
    rewrite (IH s1 (orElse d e1)), (IH s1 e1).
    destruct (fold_left step kvs (s1, None)) as [s2 e2]. simpl.
    by rewrite orElse_assoc.
Qed.

Lemma map_member_factors {T} (zero : T) dec m d kv :
  factors dec ->
  map_member zero dec (m, d) kv
  = (fst (map_member zero dec (m, None) kv),
     orElse d (snd (map_member zero dec (m, None) kv))).
Proof.
  intros H. unfold map_member. simpl.
  rewrite (H (snd kv) zero d).
  by destruct (dec (snd kv) zero None).
Qed.

Lemma factors_map {T} ty (zero : T) dec :
  factors dec -> factors (decode_map ty zero dec).
Proof.
  intros H j v d. unfold decode_map.
  destruct j; try (by destruct d).
  generalize (default ∅ v). intros m0.
  rewrite (fold_factors (map_member zero dec)
             (fun s d kv => map_member_factors zero dec s d kv H) kvs m0 d).
  by destruct (fold_left (map_member zero dec) kvs (m0, None)).
Qed.

Lemma int_map_member_factors {T} (zero : T) dec m d kv :
  factors dec ->
  int_map_member zero dec (m, d) kv
  = (fst (int_map_member zero dec (m, None) kv),
     orElse d (snd (int_map_member zero dec (m, None) kv))).
Proof.
  intros H. unfold int_map_member. simpl.
  rewrite (H (snd kv) zero d).
  destruct (dec (snd kv) zero None) as [t e]. simpl.
  destruct (ParseInt (fst kv)); simpl; [done|].
  by rewrite !saveError_orElse, orElse_assoc.
Qed.

Lemma factors_int_map {T} ty (zero : T) dec :
  factors dec -> factors (decode_int_map ty zero dec).
Proof.
  intros H j v d. unfold decode_int_map.
  destruct j; try (by destruct d).
  generalize (default ∅ v). intros m0.
  rewrite (fold_factors (int_map_member zero dec)
             (fun s d kv => int_map_member_factors zero dec s d kv H) kvs m0 d).
  by destruct (fold_left (int_map_member zero dec) kvs (m0, None)).
Qed.

Lemma factors_field {T A} (get : T -> A) set dec :
  factors dec -> factors (field get set dec).
Proof.
  intros H j v d. unfold field.
  rewrite (H j (get v) d).
  by destruct (dec j (get v) None).
Qed.

Lemma lookupField_In {T} (fields : list (string * T)) k f :
  lookupField fields k = Some f -> In f fields.
Proof.
  unfold lookupField.
  destruct (List.find _ fields) eqn:E.
  - intros [= <-]. by apply find_some in E as [? _].
  - intros E'. by apply find_some in E' as [? _].
Qed.

Lemma struct_member_factors {T} (fields : list (string * decoder T)) s d kv :
  (forall f, In f fields -> factors (snd f)) ->
  struct_member fields (s, d) kv
  = (fst (struct_member fields (s, None) kv),
     orElse d (snd (struct_member fields (s, None) kv))).
Proof.
  intros H. unfold struct_member. simpl.
  destruct (lookupField fields (fst kv)) as [f|] eqn:E; simpl.
  - apply lookupField_In in E. apply (H f E).
  - by rewrite orElse_None_r.
Qed.

Lemma factors_struct {T} ty (fields : list (string * decoder T)) :
  (forall f, In f fields -> factors (snd f)) -> factors (decode_struct ty fields).
Proof.
  intros H j v d. unfold decode_struct.
  destruct j; try (by destruct d).
  apply (fold_factors (struct_member fields)
           (fun s d kv => struct_member_factors fields s d kv H)).
Qed.

(** Every decoder of the schema factors. *)
Create HintDb schema.

#[local] Hint Resolve factors_string factors_bool factors_ptr factors_slice
  factors_map factors_int_map factors_field : schema.

Ltac each_field :=
  let f := fresh "f" in
  let Hf := fresh "Hf" in
  intros f Hf; simpl in Hf;
  repeat (destruct Hf as [<-|Hf]; [simpl; auto with schema|]);
  try contradiction.

Lemma factors_FieldGeneratorConfig : factors decode_FieldGeneratorConfig.
Proof. apply factors_struct. each_field. Qed.
#[local] Hint Resolve factors_FieldGeneratorConfig : schema.

Lemma factors_Fields : factors decode_Fields.
Proof. unfold decode_Fields. auto with schema. Qed.
#[local] Hint Resolve factors_Fields : schema.

Lemma factors_UnpackAttributesMapConfig : factors decode_UnpackAttributesMapConfig.
Proof. apply factors_struct. each_field. Qed.
#[local] Hint Resolve factors_UnpackAttributesMapConfig : schema.

Lemma factors_Codes : factors decode_Codes.
Proof. unfold decode_Codes. auto with schema. Qed.
#[local] Hint Resolve factors_Codes : schema.

Lemma factors_ExceptionsConfig : factors decode_ExceptionsConfig.
Proof. apply factors_struct. each_field. Qed.
#[local] Hint Resolve factors_ExceptionsConfig : schema.

Lemma factors_string_map : factors decode_string_map.
Proof. unfold decode_string_map. auto with schema. Qed.
#[local] Hint Resolve factors_string_map : schema.

Lemma factors_strings : factors decode_strings.
Proof. unfold decode_strings. auto with schema. Qed.
#[local] Hint Resolve factors_strings : schema.

Lemma factors_OperationRenamesConfig : factors decode_OperationRenamesConfig.
Proof. apply factors_struct. each_field. Qed.
#[local] Hint Resolve factors_OperationRenamesConfig : schema.

Lemma factors_OperationRenames : factors decode_OperationRenames.
Proof. unfold decode_OperationRenames. auto with schema. Qed.
#[local] Hint Resolve factors_OperationRenames : schema.

Lemma factors_Operations : factors decode_Operations.
Proof. unfold decode_Operations. auto with schema. Qed.
#[local] Hint Resolve factors_Operations : schema.

Lemma factors_RenamesConfig : factors decode_RenamesConfig.
Proof. apply factors_struct. each_field. Qed.
#[local] Hint Resolve factors_RenamesConfig : schema.

Lemma factors_ListOperationConfig : factors decode_ListOperationConfig.
Proof. apply factors_struct. each_field. Qed.
#[local] Hint Resolve factors_ListOperationConfig : schema.

Lemma factors_ResourceGeneratorConfig : factors decode_ResourceGeneratorConfig.
Proof. apply factors_struct. each_field. Qed.
#[local] Hint Resolve factors_ResourceGeneratorConfig : schema.

Lemma factors_Resources : factors decode_Resources.
Proof. unfold decode_Resources. auto with schema. Qed.
#[local] Hint Resolve factors_Resources : schema.

Lemma factors_IgnoreSpec : factors decode_IgnoreSpec.
Proof. apply factors_struct. each_field. Qed.
#[local] Hint Resolve factors_IgnoreSpec : schema.

Lemma factors_GeneratorConfig : factors decode_GeneratorConfig.
Proof. apply factors_struct. each_field. Qed.
#[local] Hint Resolve factors_GeneratorConfig : schema.

(** ** Field tables with the same tags *)

Lemma find_same_tags {T U} (R : T -> U -> Prop) (p : string -> bool) l1 l2 :
  same_tags R l1 l2 ->
  match List.find (fun f => p (fst f)) l1, List.find (fun f => p (fst f)) l2 with
  | Some a, Some b => fst a = fst b /\ R (snd a) (snd b)
  | None, None => True
  | _, _ => False
  end.
Proof.
  induction 1 as [|a b l1 l2 [Hab HR] _ IH]; simpl; [done|].
  rewrite <- Hab. by destruct (p (fst a)).
Qed.

Lemma lookupField_same_tags {T U} (R : T -> U -> Prop) l1 l2 k :
  same_tags R l1 l2 ->
  match lookupField l1 k, lookupField l2 k with
  | Some a, Some b => fst a = fst b /\ R (snd a) (snd b)
  | None, None => True
  | _, _ => False
  end.
Proof.
  intros H. unfold lookupField.
  pose proof (find_same_tags R (fun n => String.eqb n k) l1 l2 H) as H1.
  pose proof (find_same_tags R (fun n => equalFoldRight n k) l1 l2 H) as H2.
  simpl in H1, H2.
  destruct (List.find (fun f => String.eqb (fst f) k) l1),
           (List.find (fun f => String.eqb (fst f) k) l2); try done.
Qed.

Lemma names_same_tags {T U} (R : T -> U -> Prop) l1 l2 k n :
  same_tags R l1 l2 -> names l1 k n = names l2 k n.
Proof.
  intros H. unfold names.
  pose proof (lookupField_same_tags R l1 l2 k H) as H1.
  destruct (lookupField l1 k), (lookupField l2 k); try done.
  destruct H1 as [-> _]. done.
Qed.

(** ** Well-typed values are the ones decoded without error *)

Lemma exact_string : exact wt_string decode_string.
Proof. intros x v. destruct x; simpl; split; (done || discriminate). Qed.

Lemma exact_bool : exact wt_bool decode_bool.
Proof. intros x v. destruct x; simpl; split; (done || discriminate). Qed.

Lemma exact_ptr {T} (zero : T) c dec :
  c JNull = true -> exact c dec -> exact c (decode_ptr zero dec).
Proof.
  intros Hn H x v. unfold decode_ptr.
  destruct x; try (by rewrite Hn);
    match goal with |- context [dec ?x ?y None] =>
      rewrite <- (H x y); by destruct (dec x y None) end.
Qed.

Lemma exact_elems {T} (zero : T) c dec xs :
  factors dec -> exact c dec ->
  forall old, snd (decode_elems zero dec xs old None) = None <-> forallb c xs = true.
Proof.
  intros Hf H. induction xs as [|x xs IH]; intros old; simpl; [done|].
  rewrite andb_true_iff, <- (H x (hd zero old)), <- (IH (tl old)).
  destruct (dec x (hd zero old) None) as [t e]. simpl.
  rewrite (factors_elems zero dec xs Hf (tl old) e).
  destruct (decode_elems zero dec xs (tl old) None) as [ts e']. simpl.
  apply orElse_None.
Qed.

Lemma exact_slice {T} ty (zero : T) c dec :
  factors dec -> exact c dec -> exact (wt_slice c) (decode_slice ty zero dec).
Proof.
  intros Hf H x v. unfold decode_slice.
  destruct x; simpl; try (split; (done || discriminate)).
  rewrite <- (exact_elems zero c dec xs Hf H (default [] v)).
  by destruct (decode_elems zero dec xs (default [] v) None).
Qed.

Lemma fold_exact {S : Type} (step : S * decodeState -> string * json -> S * decodeState)
    (chk : string * json -> bool) :
  (forall s d kv,
     step (s, d) kv = (fst (step (s, None) kv), orElse d (snd (step (s, None) kv)))) ->
  (forall s kv, snd (step (s, None) kv) = None <-> chk kv = true) ->
  forall kvs s, snd (fold_left step kvs (s, None)) = None <-> forallb chk kvs = true.
Proof.
  intros Hf H. induction kvs as [|kv kvs IH]; intros s; simpl; [done|].
  rewrite andb_true_iff, <- (H s kv).
  destruct (step (s, None) kv) as [s1 e1] eqn:E. simpl.
  rewrite (fold_factors step Hf kvs s1 e1), <- (IH s1). simpl.
  apply orElse_None.
Qed.

Lemma exact_map {T} ty (zero : T) c dec :
  factors dec -> exact c dec -> exact (wt_map c) (decode_map ty zero dec).
Proof.
  intros Hf H x v. unfold decode_map.
  destruct x; simpl; try (split; (done || discriminate)).
  generalize (default ∅ v). intros m0.
  rewrite <- (fold_exact (map_member zero dec) (fun kv => c (snd kv))
                (fun s d kv => map_member_factors zero dec s d kv Hf)) with (s := m0).
  - by destruct (fold_left (map_member zero dec) kvs (m0, None)).
  - intros s kv. unfold map_member. simpl.
    rewrite <- (H (snd kv) zero). by destruct (dec (snd kv) zero None).
Qed.

Lemma exact_int_map {T} ty (zero : T) c dec :
  factors dec -> exact c dec -> exact (wt_int_map c) (decode_int_map ty zero dec).
Proof.
  intros Hf H x v. unfold decode_int_map.
  destruct x; simpl; try (split; (done || discriminate)).
  generalize (default ∅ v). intros m0.
  rewrite <- (fold_exact (int_map_member zero dec)
                (fun kv => c (snd kv) && bool_decide (is_Some (ParseInt (fst kv))))
                (fun s d kv => int_map_member_factors zero dec s d kv Hf)) with (s := m0).
  - by destruct (fold_left (int_map_member zero dec) kvs (m0, None)).
  - intros s kv. unfold int_map_member. simpl.
    rewrite andb_true_iff, <- (H (snd kv) zero), bool_decide_eq_true.
    destruct (dec (snd kv) zero None) as [t e]. simpl.
    destruct (ParseInt (fst kv)) as [n|]; simpl.
    + split; [intros ->; split; [done|by eexists] | by intros [-> _]].
    + split; [by destruct e | intros [_ [n Hn]]; discriminate].
Qed.

Lemma exact_field {T A} (get : T -> A) set c dec :
  exact c dec -> exact c (field get set dec).
Proof.
  intros H x v. unfold field. rewrite <- (H x (get v)).
  by destruct (dec x (get v) None).
Qed.

Lemma exact_struct {T} ty (fields : list (string * decoder T)) types :
  same_tags (fun dec c => factors dec /\ exact c dec) fields types ->
  exact (wt_struct types) (decode_struct ty fields).
Proof.
  intros H x v. unfold decode_struct.
  destruct x; simpl; try (split; (done || discriminate)).
  apply (fold_exact (struct_member fields) (wt_member types)).
  - intros s d kv. apply struct_member_factors.
    intros f Hf. clear -H Hf.
    induction H as [|a b l1 l2 [_ [Hfa _]] _ IH]; [done|].
    destruct Hf as [<-|Hf]; auto.
  - intros s kv. unfold struct_member, wt_member. simpl.
    pose proof (lookupField_same_tags _ fields types (fst kv) H) as L.
    destruct (lookupField fields (fst kv)) as [f|],
             (lookupField types (fst kv)) as [g|]; try done.
    destruct L as [_ [_ L]]. apply L.
Qed.

(** Every decoder of the schema is exact for its checker. *)
#[local] Hint Resolve exact_string exact_bool exact_ptr exact_slice
  exact_map exact_int_map exact_field : schema.

Ltac tags :=
  unfold same_tags;
  repeat (constructor;
    [simpl; split; [reflexivity|];
     unfold decode_Fields, decode_Codes, decode_string_map, decode_strings,
       decode_Operations, decode_OperationRenames, decode_Resources;
     split; auto with schema|]);
  constructor.

Lemma tags_FieldGeneratorConfig :
  same_tags (fun dec c => factors dec /\ exact c dec) FieldGeneratorConfig_fields FieldGeneratorConfig_types.
Proof. tags. Qed.

Lemma exact_FieldGeneratorConfig :
  exact (wt_struct FieldGeneratorConfig_types) decode_FieldGeneratorConfig.
Proof. apply exact_struct, tags_FieldGeneratorConfig. Qed.
#[local] Hint Resolve exact_FieldGeneratorConfig : schema.

Lemma tags_UnpackAttributesMapConfig :
  same_tags (fun dec c => factors dec /\ exact c dec) UnpackAttributesMapConfig_fields UnpackAttributesMapConfig_types.
Proof. tags. Qed.

Lemma exact_UnpackAttributesMapConfig :
  exact (wt_struct UnpackAttributesMapConfig_types) decode_UnpackAttributesMapConfig.
Proof. apply exact_struct, tags_UnpackAttributesMapConfig. Qed.
#[local] Hint Resolve exact_UnpackAttributesMapConfig : schema.

Lemma tags_ExceptionsConfig :
  same_tags (fun dec c => factors dec /\ exact c dec) ExceptionsConfig_fields ExceptionsConfig_types.
Proof. tags. Qed.

Lemma exact_ExceptionsConfig :
  exact (wt_struct ExceptionsConfig_types) decode_ExceptionsConfig.
Proof. apply exact_struct, tags_ExceptionsConfig. Qed.
#[local] Hint Resolve exact_ExceptionsConfig : schema.

Lemma tags_OperationRenamesConfig :
  same_tags (fun dec c => factors dec /\ exact c dec) OperationRenamesConfig_fields OperationRenamesConfig_types.
Proof. tags. Qed.

Lemma exact_OperationRenamesConfig :
  exact (wt_struct OperationRenamesConfig_types) decode_OperationRenamesConfig.
Proof. apply exact_struct, tags_OperationRenamesConfig. Qed.
#[local] Hint Resolve exact_OperationRenamesConfig : schema.

Lemma tags_RenamesConfig :
  same_tags (fun dec c => factors dec /\ exact c dec) RenamesConfig_fields RenamesConfig_types.
Proof. tags. Qed.

Lemma exact_RenamesConfig :
  exact (wt_struct RenamesConfig_types) decode_RenamesConfig.
Proof. apply exact_struct, tags_RenamesConfig. Qed.
#[local] Hint Resolve exact_RenamesConfig : schema.

Lemma tags_ListOperationConfig :
  same_tags (fun dec c => factors dec /\ exact c dec) ListOperationConfig_fields ListOperationConfig_types.
Proof. tags. Qed.

Lemma exact_ListOperationConfig :
  exact (wt_struct ListOperationConfig_types) decode_ListOperationConfig.
Proof. apply exact_struct, tags_ListOperationConfig. Qed.
#[local] Hint Resolve exact_ListOperationConfig : schema.

Lemma tags_ResourceGeneratorConfig :
  same_tags (fun dec c => factors dec /\ exact c dec) ResourceGeneratorConfig_fields ResourceGeneratorConfig_types.
Proof. tags. Qed.

Lemma exact_ResourceGeneratorConfig :
  exact (wt_struct ResourceGeneratorConfig_types) decode_ResourceGeneratorConfig.
Proof. apply exact_struct, tags_ResourceGeneratorConfig. Qed.
#[local] Hint Resolve exact_ResourceGeneratorConfig : schema.

Lemma tags_IgnoreSpec :
  same_tags (fun dec c => factors dec /\ exact c dec) IgnoreSpec_fields IgnoreSpec_types.
Proof. tags. Qed.

Lemma exact_IgnoreSpec :
  exact (wt_struct IgnoreSpec_types) decode_IgnoreSpec.
Proof. apply exact_struct, tags_IgnoreSpec. Qed.
#[local] Hint Resolve exact_IgnoreSpec : schema.

Lemma tags_GeneratorConfig :
  same_tags (fun dec c => factors dec /\ exact c dec)
    GeneratorConfig_fields GeneratorConfig_types.
Proof. tags. Qed.

Lemma exact_GeneratorConfig : exact well_typed decode_GeneratorConfig.
Proof. apply exact_struct, tags_GeneratorConfig. Qed.

(** A document is decoded without error exactly when it is well typed. *)
Lemma decode_document_well_typed j gc :
  snd (decode_document j gc) = None <-> well_typed j = true.
Proof. apply exact_GeneratorConfig. Qed.

(** ** The loader *)

Lemma NewGeneratorConfig_read {IOE YE : Type}
    (ReadFile : string -> result IOE string) (yamlToJSON : string -> result YE json)
    (path contents : string) (doc : json) :
  ReadFile path = Ok contents ->
  yamlToJSON contents = Ok doc ->
  NewGeneratorConfig ReadFile yamlToJSON path
  = if (maxNestingDepth <? json_depth doc)%N
    then (None, Some (SyntaxError "exceeded max depth"))
    else match decode_document doc Zero.GeneratorConfig with
         | (gc, None) => (Some gc, None)
         | (_, Some e) => (None, Some (UnmarshalError e))
         end.
Proof.
  intros HR HY. unfold NewGeneratorConfig, yaml_Unmarshal, json_Unmarshal.
  rewrite HR, HY.
  destruct (maxNestingDepth <? json_depth doc)%N; [done|].
  by destruct (decode_document doc Zero.GeneratorConfig) as [gc [e|]].
Qed.

Lemma NewGeneratorConfig_shallow {IOE YE : Type}
    (ReadFile : string -> result IOE string) (yamlToJSON : string -> result YE json)
    (path contents : string) (doc : json) :
  ReadFile path = Ok contents ->
  yamlToJSON contents = Ok doc ->
  (json_depth doc <=? maxNestingDepth)%N = true ->
  NewGeneratorConfig ReadFile yamlToJSON path
  = match decode_document doc Zero.GeneratorConfig with
    | (gc, None) => (Some gc, None)
    | (_, Some e) => (None, Some (UnmarshalError e))
    end.
Proof.
  intros HR HY Hd.
  rewrite (NewGeneratorConfig_read ReadFile yamlToJSON path contents doc HR HY).
  apply N.leb_le in Hd.
  by rewrite (proj2 (N.ltb_ge maxNestingDepth (json_depth doc)) Hd).
Qed.

Lemma NewGeneratorConfig_well_typed {IOE YE : Type}
    (ReadFile : string -> result IOE string) (yamlToJSON : string -> result YE json)
    (path contents : string) (doc : json) :
  ReadFile path = Ok contents ->
  yamlToJSON contents = Ok doc ->
  (json_depth doc <=? maxNestingDepth)%N = true ->
  well_typed doc = true ->
  NewGeneratorConfig ReadFile yamlToJSON path
  = (Some (fst (decode_document doc Zero.GeneratorConfig)), None).
Proof.
  intros HR HY Hd Hwt.
  rewrite (NewGeneratorConfig_shallow ReadFile yamlToJSON path contents doc HR HY Hd).
  apply (decode_document_well_typed doc Zero.GeneratorConfig) in Hwt.
  destruct (decode_document doc Zero.GeneratorConfig) as [gc e]. simpl in *. by subst.
Qed.

(** ** Keys that are not integers *)

Lemma uint_of_string_digits s d :
  NilEmpty.uint_of_string s = Some d -> all_digits s = true.
Proof.
  revert d. induction s as [|c s IH]; intros d; simpl; [done|].
  destruct (NilEmpty.uint_of_string s) as [d'|]; [|done].
  intros H. rewrite (IH d' eq_refl), andb_true_r.
  apply uint_of_char_spec in H.
  repeat (destruct H as [[-> _]|H]; [done|]). by destruct H as [-> _].
Qed.

Lemma NilZero_uint_of_string_digits s d :
  NilZero.uint_of_string s = Some d -> negb (String.eqb s "") && all_digits s = true.
Proof.
  destruct s as [|c s]; [done|]. intros H.
  change (NilEmpty.uint_of_string (String c s) = Some d) in H.
  by rewrite (uint_of_string_digits _ _ H).
Qed.

Lemma ParseInt_decimal_integer s n : ParseInt s = Some n -> decimal_integer s = true.
Proof.
  unfold ParseInt, decimal_integer. destruct s as [|c s]; [done|].
  destruct (Ascii.eqb c "+") eqn:Ep; simpl.
  - destruct (NilZero.uint_of_string s) as [d|] eqn:E; [|done]. intros _.
    by apply NilZero_uint_of_string_digits in E.
  - unfold NilZero.int_of_string.
    destruct (Ascii.eqb c "-") eqn:Em; simpl.
    + destruct (NilZero.uint_of_string s) as [d|] eqn:E; [|done]. intros _.
      by apply NilZero_uint_of_string_digits in E.
    + destruct (uint_of_char c (NilEmpty.uint_of_string s)) as [d|] eqn:E; [|done].
      intros _. by apply (uint_of_string_digits (String c s) d).
Qed.

Lemma In_members_naming {T} (fields : list (string * T)) n kvs x :
  In x (members_naming fields n kvs) ->
  exists k, In (k, x) kvs /\ names fields k n = true.
Proof.
  unfold members_naming. intros H.
  apply in_map_iff in H as [[k y] [<- H]].
  apply filter_In in H as [H1 H2]. by exists k.
Qed.

Lemma names_lookupField {T} (fields : list (string * T)) k n :
  names fields k n = true ->
  exists f, lookupField fields k = Some f /\ fst f = n /\ In f fields.
Proof.
  unfold names. destruct (lookupField fields k) as [f|] eqn:E; [|done].
  intros H. apply String.eqb_eq in H. exists f. split; [done|]. split; [done|].
  by apply lookupField_In in E.
Qed.

Lemma wt_map_rejects (c : checker) kvs kv :
  In kv kvs -> c (snd kv) = false -> wt_map c (JObject kvs) = false.
Proof.
  intros Hin Hc. simpl. apply not_true_is_false. intros H.
  rewrite forallb_forall in H. specialize (H kv Hin). congruence.
Qed.

(** A struct is rejected when a member that names one of its fields has a
    value the field's checker rejects. *)
Lemma wt_struct_rejects {T} (R : T -> checker -> Prop)
    (fields : list (string * T)) types n (c : checker) (p : json -> bool) x :
  same_tags R fields types ->
  (forall f, In f types -> fst f = n -> snd f = c) ->
  (forall y, p y = true -> c y = false) ->
  existsb p (members_naming fields n (object_members x)) = true ->
  wt_struct types x = false.
Proof.
  intros Ht Hc Hp H.
  apply existsb_exists in H as [y [Hy Hpy]].
  apply In_members_naming in Hy as [k [Hin Hk]].
  destruct x; try done. simpl in *.
  apply not_true_is_false. intros Hall.
  rewrite forallb_forall in Hall. specialize (Hall (k, y) Hin).
  unfold wt_member in Hall. simpl in Hall.
  rewrite (names_same_tags R fields types k n Ht) in Hk.
  apply names_lookupField in Hk as [f [Hf [Hn Hfin]]].
  rewrite Hf, (Hc f Hfin Hn), (Hp y Hpy) in Hall. done.
Qed.

Ltac the_field :=
  let f := fresh "f" in
  let Hf := fresh "Hf" in
  let Hn := fresh "Hn" in
  intros f Hf Hn; simpl in Hf;
  repeat (destruct Hf as [<-|Hf]; [try discriminate Hn; try reflexivity|]);
  try contradiction.

Lemma codes_rejected cs :
  existsb (fun c => negb (decimal_integer (fst c))) (object_members cs) = true ->
  wt_int_map wt_string cs = false.
Proof.
  intros H. apply existsb_exists in H as [c [Hin Hc]].
  destruct cs; try done. simpl in *.
  apply not_true_is_false. intros Hall.
  rewrite forallb_forall in Hall. specialize (Hall c Hin).
  apply andb_true_iff in Hall as [_ Hall].
  apply bool_decide_eq_true in Hall as [n Hn].
  apply ParseInt_decimal_integer in Hn. rewrite Hn in Hc. done.
Qed.

Lemma resource_rejected r :
  resource_has_non_integer_code r = true ->
  wt_struct ResourceGeneratorConfig_types r = false.
Proof.
  apply (wt_struct_rejects _ _ _ _ (wt_struct ExceptionsConfig_types) _ _
           tags_ResourceGeneratorConfig); [the_field|].
  intros ex.
  apply (wt_struct_rejects _ _ _ _ (wt_int_map wt_string) _ _
           tags_ExceptionsConfig); [the_field|].
  apply codes_rejected.
Qed.

Lemma non_integer_code_rejected doc :
  has_non_integer_code doc = true -> well_typed doc = false.
Proof.
  apply (wt_struct_rejects _ _ _ _ (wt_map (wt_struct ResourceGeneratorConfig_types)) _ _
           tags_GeneratorConfig); [the_field|].
  intros rs H. apply existsb_exists in H as [r [Hin Hr]].
  destruct rs; try done.
  apply (wt_map_rejects _ _ r Hin). by apply resource_rejected.
Qed.

(** ** Failure and success of a load *)

(** C1. For every path that [ioutil.ReadFile] cannot read,
    [NewGeneratorConfig] returns the I/O error and a nil config; and for
    every path, a call that returns an error returns a nil config: no
    partial configuration comes with a failure. *)
Theorem NewGeneratorConfig_unreadable {IOE YE : Type}
    (ReadFile : string -> result IOE string) (yamlToJSON : string -> result YE json)
    (path : string) (e : IOE) :
  ReadFile path = Err e ->
  NewGeneratorConfig ReadFile yamlToJSON path = (None, Some (IOError e))
  /\ is_io_error (IOError e : error IOE YE) = true
  /\ (forall p gc err,
        NewGeneratorConfig ReadFile yamlToJSON p = (gc, Some err) -> gc = None).
Proof.
  intros H. split; [|split; [reflexivity|]].
  - unfold NewGeneratorConfig. by rewrite H.
  - intros p gc err. unfold NewGeneratorConfig.
    destruct (ReadFile p) as [contents|e'].
    + destruct (yaml_Unmarshal yamlToJSON contents Zero.GeneratorConfig) as [g [e'|]];
        by intros [= <- _].
    + by intros [= <- _].
Qed.

Lemma NewGeneratorConfig_unreadable_witness :
  NewGeneratorConfig (Sample.ReadFile Sample.files) (Sample.yamlToJSON Sample.table)
    "missing.yaml" = (None, Some (IOError Sample.ENOENT))
  /\ is_io_error (IOError Sample.ENOENT : error Sample.errno string) = true
  /\ (forall p gc err,
        NewGeneratorConfig (Sample.ReadFile Sample.files) (Sample.yamlToJSON Sample.table) p
        = (gc, Some err) -> gc = None).
Proof.
  exact (NewGeneratorConfig_unreadable (Sample.ReadFile Sample.files)
           (Sample.yamlToJSON Sample.table) "missing.yaml" Sample.ENOENT eq_refl).
Defined.

(** C2. Loading a file whose contents are empty succeeds: the YAML reader
    gives the document [null] for the empty text, and the configuration
    returned has a nil (empty) [Resources] map and the zero [IgnoreSpec],
    with no error. *)
Theorem NewGeneratorConfig_empty_document {IOE YE : Type}
    (ReadFile : string -> result IOE string) (yamlToJSON : string -> result YE json)
    (path : string) :
  ReadFile path = Ok "" ->
  yamlToJSON "" = Ok JNull ->
  exists gc,
    NewGeneratorConfig ReadFile yamlToJSON path = (Some gc, None)
    /\ Resources gc = None
    /\ Ignore gc
       = {| Ignore_Operations := None; ResourceNames := None; ShapeNames := None |}.
Proof.
  intros HR HY. exists Zero.GeneratorConfig.
  by rewrite (NewGeneratorConfig_read ReadFile yamlToJSON path "" JNull HR HY).
Qed.

Lemma NewGeneratorConfig_empty_document_witness :
  exists gc,
    NewGeneratorConfig (Sample.ReadFile Sample.files) (Sample.yamlToJSON Sample.table)
      "empty.yaml" = (Some gc, None)
    /\ Resources gc = None
    /\ Ignore gc
       = {| Ignore_Operations := None; ResourceNames := None; ShapeNames := None |}.
Proof.
  exact (NewGeneratorConfig_empty_document (Sample.ReadFile Sample.files)
           (Sample.yamlToJSON Sample.table) "empty.yaml" eq_refl eq_refl).
Defined.

(** C3. For every document in which the [codes] table under some
    resource's [exceptions] has a key that is not an integer,
    [NewGeneratorConfig] returns a nil config and a schema error; the error
    is the type error of the decoder, unless the document is nested deeper
    than [maxNestingDepth], which is refused before it is decoded. *)
Theorem NewGeneratorConfig_non_integer_code {IOE YE : Type}
    (ReadFile : string -> result IOE string) (yamlToJSON : string -> result YE json)
    (path contents : string) (doc : json) :
  ReadFile path = Ok contents ->
  yamlToJSON contents = Ok doc ->
  has_non_integer_code doc = true ->
  exists err : error IOE YE,
    NewGeneratorConfig ReadFile yamlToJSON path = (None, Some err)
    /\ is_schema_error err = true
    /\ ((json_depth doc <=? maxNestingDepth)%N = true ->
        exists e : UnmarshalTypeError, err = UnmarshalError e).
Proof.
  intros HR HY Hbad.
  rewrite (NewGeneratorConfig_read ReadFile yamlToJSON path contents doc HR HY).
  destruct (maxNestingDepth <? json_depth doc)%N eqn:Hd.
  - eexists. split; [reflexivity|]. split; [reflexivity|].
    intros Hle. apply N.leb_le in Hle. apply N.ltb_lt in Hd. lia.
  - apply non_integer_code_rejected in Hbad.
    pose proof (decode_document_well_typed doc Zero.GeneratorConfig) as Hwt.
    destruct (decode_document doc Zero.GeneratorConfig) as [gc [e|]]; simpl in Hwt.
    + exists (UnmarshalError e). split; [reflexivity|]. split; [reflexivity|].
      intros _. by exists e.
    + destruct Hwt as [Hwt _]. rewrite (Hwt eq_refl) in Hbad. discriminate.
Qed.

Lemma NewGeneratorConfig_non_integer_code_witness :
  exists e : UnmarshalTypeError,
    NewGeneratorConfig (Sample.ReadFile Sample.files) (Sample.yamlToJSON Sample.table)
      "bad_codes.yaml" = (None, Some (UnmarshalError e))
    /\ is_schema_error (UnmarshalError e : error Sample.errno string) = true.
Proof.
  destruct (NewGeneratorConfig_non_integer_code (Sample.ReadFile Sample.files)
              (Sample.yamlToJSON Sample.table) "bad_codes.yaml" "bad_codes"
              Sample.bad_codes eq_refl eq_refl eq_refl) as (err & HN & Hs & Hd).
  destruct (Hd eq_refl) as [e He].
  exists e. split; [|reflexivity].
  rewrite <- He. exact HN.
Defined.

(** The sample document nested too deep is refused, well typed as it is. *)
Lemma deep_is_refused :
  well_typed Nesting.deep = true
  /\ NewGeneratorConfig (Sample.ReadFile Nesting.files)
       (Sample.yamlToJSON Nesting.table) "deep.yaml"
     = (None, Some (SyntaxError "exceeded max depth")).
Proof. split; [reflexivity | vm_compute; reflexivity]. Qed.

(** Not every type-well-formed document loads, so that C7 needs its bound on
    the nesting: the sample document is well typed and is refused for its
    nesting. *)
Lemma not_every_well_typed_document_loads :
  ~ (forall path contents doc,
       Sample.ReadFile Nesting.files path = Ok contents ->
       Sample.yamlToJSON Nesting.table contents = Ok doc ->
       well_typed doc = true ->
       exists gc,
         NewGeneratorConfig (Sample.ReadFile Nesting.files)
           (Sample.yamlToJSON Nesting.table) path = (Some gc, None)).
Proof.
  intros H.
  destruct (H "deep.yaml" "deep" Nesting.deep eq_refl eq_refl eq_refl) as [gc Hgc].
  rewrite (proj2 deep_is_refused) in Hgc. discriminate Hgc.
Qed.

(** C7. Every type-well-formed document nested no deeper than
    [maxNestingDepth] loads with no error, whatever it says: nothing but the
    nesting and the JSON types of the values under known keys is checked, so
    rename collisions, several owner-account-id flags in one resource, and
    resource names no API has do not make a load fail. *)
Theorem NewGeneratorConfig_no_semantic_validation {IOE YE : Type}
    (ReadFile : string -> result IOE string) (yamlToJSON : string -> result YE json)
    (path contents : string) (doc : json) :
  ReadFile path = Ok contents ->
  yamlToJSON contents = Ok doc ->
  well_typed doc = true ->
  (json_depth doc <=? maxNestingDepth)%N = true ->
  exists gc, NewGeneratorConfig ReadFile yamlToJSON path = (Some gc, None).
Proof.
  intros HR HY Hwt Hd. eexists.
  apply (NewGeneratorConfig_well_typed ReadFile yamlToJSON path contents doc HR HY Hd Hwt).
Qed.

Lemma NewGeneratorConfig_no_semantic_validation_witness :
  exists gc,
    NewGeneratorConfig (Sample.ReadFile Sample.files) (Sample.yamlToJSON Sample.table)
      "unchecked.yaml" = (Some gc, None).
Proof.
  exact (NewGeneratorConfig_no_semantic_validation (Sample.ReadFile Sample.files)
           (Sample.yamlToJSON Sample.table) "unchecked.yaml" "unchecked"
           Sample.unchecked eq_refl eq_refl eq_refl eq_refl).
Defined.

(** ** Missing and empty keys *)

(** A member that does not name a field leaves that field as it is. *)
Lemma struct_frame {T A : Type} (get : T -> A) (fields : list (string * decoder T))
    (n : string) (kvs : list (string * json)) :
  (forall f, In f fields -> fst f <> n ->
     forall x v d, get (fst (snd f x v d)) = get v) ->
  absent fields n kvs = true ->
  forall v d, get (fst (fold_left (struct_member fields) kvs (v, d))) = get v.
Proof.
  intros Hother. induction kvs as [|kv kvs IH]; simpl; [done|].
  intros Habs v d. apply andb_true_iff in Habs as [Hkv Habs].
  destruct (struct_member fields (v, d) kv) as [v1 d1] eqn:E.
  rewrite (IH Habs v1 d1).
  unfold struct_member, names in *. simpl in E.
  destruct (lookupField fields (fst kv)) as [f|] eqn:L.
  - apply negb_true_iff, String.eqb_neq in Hkv.
    apply lookupField_In in L.
    change v1 with (fst (v1, d1)). rewrite <- E. by apply Hother.
  - by injection E as <- <-.
Qed.

(** When every member that names a field gives it a value accepted by [p],
    and storing such a value sets the field to [a], the field ends as [a]. *)
Lemma struct_present {T A : Type} (get : T -> A) (fields : list (string * decoder T))
    (n : string) (p : json -> bool) (a : A) (P : A -> Prop)
    (kvs : list (string * json)) :
  (forall f, In f fields -> fst f <> n ->
     forall x v d, get (fst (snd f x v d)) = get v) ->
  (forall f, In f fields -> fst f = n ->
     forall x v d, p x = true -> P (get v) -> get (fst (snd f x v d)) = a) ->
  P a ->
  present_with fields n p kvs = true ->
  forall v d, P (get v) -> get (fst (fold_left (struct_member fields) kvs (v, d))) = a.
Proof.
  intros Hother Hthis Pa Hpres.
  apply andb_true_iff in Hpres as [Hex Hall].
  assert (Hstep : forall kv v d,
            implb (names fields (fst kv) n) (p (snd kv)) = true ->
            (names fields (fst kv) n = true -> P (get v) ->
               get (fst (struct_member fields (v, d) kv)) = a)
            /\ (names fields (fst kv) n = false ->
               get (fst (struct_member fields (v, d) kv)) = get v)).
  { intros kv v d Himp. unfold struct_member, names in *. simpl.
    destruct (lookupField fields (fst kv)) as [f|] eqn:L; [|by split].
    apply lookupField_In in L. split; intros Hn.
    - rewrite Hn in Himp. apply String.eqb_eq in Hn. by apply Hthis.
    - apply String.eqb_neq in Hn. by apply Hother. }
  assert (Hkeep : forall kvs, forallb (fun kv => implb (names fields (fst kv) n) (p (snd kv))) kvs = true ->
            forall v d, get v = a ->
              get (fst (fold_left (struct_member fields) kvs (v, d))) = a).
  { clear Hex Hall kvs. induction kvs as [|kv kvs IH]; simpl; [done|].
    intros Hall v d Hv. apply andb_true_iff in Hall as [Hkv Hall].
    destruct (Hstep kv v d Hkv) as [H1 H2].
    destruct (struct_member fields (v, d) kv) as [v1 d1] eqn:E. simpl in *.
    apply (IH Hall). destruct (names fields (fst kv) n).
    - apply H1; [done|]. by rewrite Hv.
    - by rewrite H2. }
  induction kvs as [|kv kvs IH]; simpl in *; [done|].
  intros v d Pv. apply andb_true_iff in Hall as [Hkv Hall].
  destruct (Hstep kv v d Hkv) as [H1 H2].
  destruct (struct_member fields (v, d) kv) as [v1 d1] eqn:E. simpl in *.
  destruct (names fields (fst kv) n).
  - apply (Hkeep kvs Hall). by apply H1.
  - apply (IH Hex Hall). by rewrite H2.
Qed.

(** The fields other than the one named are untouched by their siblings. *)
Ltac other_fields :=
  let f := fresh "f" in
  let Hf := fresh "Hf" in
  let Hn := fresh "Hn" in
  let x := fresh "x" in
  let v := fresh "v" in
  let d := fresh "d" in
  intros f Hf Hn; simpl in Hf;
  repeat (destruct Hf as [<-|Hf];
          [first [ by destruct Hn
                 | intros x v d; unfold field; simpl;
                   match goal with |- context [let '(_, _) := ?e in _] => by destruct e end ]|]);
  try contradiction.

Ltac frame name :=
  let H := fresh "H" in
  intros;
  repeat match goal with x := _ |- _ => subst x end;
  match goal with Habs : absent _ _ _ = true |- _ => rename Habs into H end;
  unfold decode_GeneratorConfig, decode_IgnoreSpec, decode_ResourceGeneratorConfig,
    decode_UnpackAttributesMapConfig, decode_FieldGeneratorConfig,
    decode_ExceptionsConfig, decode_RenamesConfig, decode_OperationRenamesConfig,
    decode_ListOperationConfig;
  match goal with
  | |- ?get (fst (decode_struct _ ?fields (JObject ?kvs) ?v ?d)) = _ =>
      apply (struct_frame get fields name kvs); [other_fields | exact H]
  end.

(** C5. A key that is missing from a document leaves its field at the zero
    value: at the top level of a loaded configuration, and in every struct
    decoded from an object of the document, a field none of whose keys
    occurs is nil (map, slice, pointer) or false; nothing else is put in
    its place. *)
Theorem missing_key_zero_value :
  (forall (IOE YE : Type) (ReadFile : string -> result IOE string)
      (yamlToJSON : string -> result YE json) path contents top gc,
      ReadFile path = Ok contents ->
      yamlToJSON contents = Ok (JObject top) ->
      NewGeneratorConfig ReadFile yamlToJSON path = (Some gc, None) ->
      (absent GeneratorConfig_fields "resources" top = true -> Resources gc = None)
      /\ (absent GeneratorConfig_fields "ignore" top = true ->
          Ignore gc = Zero.IgnoreSpec))
  /\ (forall kvs d,
        let v := fst (decode_IgnoreSpec (JObject kvs) Zero.IgnoreSpec d) in
        (absent IgnoreSpec_fields "operations" kvs = true -> Ignore_Operations v = None)
        /\ (absent IgnoreSpec_fields "resource_names" kvs = true -> ResourceNames v = None)
        /\ (absent IgnoreSpec_fields "shape_names" kvs = true -> ShapeNames v = None))
  /\ (forall kvs d,
        let v := fst (decode_ResourceGeneratorConfig (JObject kvs)
                        Zero.ResourceGeneratorConfig d) in
        (absent ResourceGeneratorConfig_fields "name_field" kvs = true ->
           NameField v = None)
        /\ (absent ResourceGeneratorConfig_fields "unpack_attributes_map" kvs = true ->
            UnpackAttributesMap v = None)
        /\ (absent ResourceGeneratorConfig_fields "exceptions" kvs = true ->
            Exceptions v = None)
        /\ (absent ResourceGeneratorConfig_fields "renames" kvs = true ->
            Renames v = None)
        /\ (absent ResourceGeneratorConfig_fields "list_operation" kvs = true ->
            ListOperation v = None))
  /\ (forall kvs d,
        absent UnpackAttributesMapConfig_fields "fields" kvs = true ->
        Fields (fst (decode_UnpackAttributesMapConfig (JObject kvs)
                       Zero.UnpackAttributesMapConfig d)) = None)
  /\ (forall kvs d,
        let v := fst (decode_FieldGeneratorConfig (JObject kvs)
                        Zero.FieldGeneratorConfig d) in
        (absent FieldGeneratorConfig_fields "is_read_only" kvs = true ->
           IsReadOnly v = false)
        /\ (absent FieldGeneratorConfig_fields "contains_owner_account_id" kvs = true ->
            ContainsOwnerAccountID v = false))
  /\ (forall kvs d,
        absent ExceptionsConfig_fields "codes" kvs = true ->
        Codes (fst (decode_ExceptionsConfig (JObject kvs) Zero.ExceptionsConfig d)) = None)
  /\ (forall kvs d,
        absent RenamesConfig_fields "operations" kvs = true ->
        Renames_Operations
          (fst (decode_RenamesConfig (JObject kvs) Zero.RenamesConfig d)) = None)
  /\ (forall kvs d,
        let v := fst (decode_OperationRenamesConfig (JObject kvs)
                        Zero.OperationRenamesConfig d) in
        (absent OperationRenamesConfig_fields "input_fields" kvs = true ->
           InputFields v = None)
        /\ (absent OperationRenamesConfig_fields "output_fields" kvs = true ->
            OutputFields v = None))
  /\ (forall kvs d,
        absent ListOperationConfig_fields "match_fields" kvs = true ->
        MatchFields
          (fst (decode_ListOperationConfig (JObject kvs) Zero.ListOperationConfig d))
        = None).
Proof.
  split.
  { intros IOE YE ReadFile yamlToJSON path contents top gc HR HY HN.
    rewrite (NewGeneratorConfig_read ReadFile yamlToJSON path contents _ HR HY) in HN.
    destruct (maxNestingDepth <? json_depth (JObject top))%N; [done|].
    unfold decode_document in HN.
    destruct (decode_GeneratorConfig (JObject top) Zero.GeneratorConfig None)
      as [g [e|]] eqn:E; [done|]. injection HN as <-.
    change g with (fst (g, @None UnmarshalTypeError)). rewrite <- E.
    split; [frame "resources" | frame "ignore"]. }
  repeat split.
  - frame "operations".
  - frame "resource_names".
  - frame "shape_names".
  - frame "name_field".
  - frame "unpack_attributes_map".
  - frame "exceptions".
  - frame "renames".
  - frame "list_operation".
  - frame "fields".
  - frame "is_read_only".
  - frame "contains_owner_account_id".
  - frame "codes".
  - frame "operations".
  - frame "input_fields".
  - frame "output_fields".
  - frame "match_fields".
Qed.

Lemma missing_key_zero_value_witness :
  exists gc,
    NewGeneratorConfig (Sample.ReadFile Sample.files) (Sample.yamlToJSON Sample.table)
      "unchecked.yaml" = (Some gc, None)
    /\ Ignore gc = Zero.IgnoreSpec.
Proof.
  set (gc := fst (decode_document Sample.unchecked Zero.GeneratorConfig)).
  assert (HN : NewGeneratorConfig (Sample.ReadFile Sample.files)
                 (Sample.yamlToJSON Sample.table) "unchecked.yaml" = (Some gc, None))
    by (vm_compute; reflexivity).
  exists gc. split; [exact HN|].
  exact (proj2 (proj1 missing_key_zero_value _ _ _ _ "unchecked.yaml" "unchecked"
                  (object_members Sample.unchecked) gc eq_refl eq_refl HN) eq_refl).
Defined.

Ltac this_pointer :=
  let f := fresh "f" in
  let Hf := fresh "Hf" in
  let Hn := fresh "Hn" in
  let x := fresh "x" in
  let v := fresh "v" in
  let d := fresh "d" in
  let Hp := fresh "Hp" in
  let HP := fresh "HP" in
  intros f Hf Hn; simpl in Hf;
  repeat (destruct Hf as [<-|Hf];
          [first [ discriminate Hn
                 | intros x v d Hp HP; destruct v; simpl in HP;
                   destruct x as [| | | | |[|? ?]]; try discriminate Hp;
                   destruct HP as [->| ->]; reflexivity ]|]);
  try contradiction.

Ltac present name zero :=
  intros;
  repeat match goal with x := _ |- _ => subst x end;
  match goal with Hpres : present_with _ _ _ _ = true |- _ => revert Hpres end;
  unfold decode_ResourceGeneratorConfig;
  match goal with
  | |- present_with _ _ ?p ?kvs = true ->
       ?get (fst (decode_struct _ ?fields (JObject ?kvs) ?v ?d)) = ?a =>
      let H := fresh "H" in
      intros H;
      apply (struct_present get fields name p a (nil_or_zero zero) kvs);
        [other_fields | this_pointer | by right | exact H | by left]
  end.

(** C8. In a resource override, an optional sub-config whose key is absent
    is a nil pointer in the loaded [ResourceGeneratorConfig], and one whose
    key is present with an empty object (an empty string for [name_field])
    is a non-nil pointer to the zero value of the sub-config. *)
Theorem absent_or_empty_sub_config (kvs : list (string * json)) (d : decodeState) :
  let r := fst (decode_ResourceGeneratorConfig (JObject kvs)
                  Zero.ResourceGeneratorConfig d) in
  ((absent ResourceGeneratorConfig_fields "name_field" kvs = true ->
      NameField r = None)
   /\ (present_with ResourceGeneratorConfig_fields "name_field" is_empty_string kvs = true ->
       NameField r = Some ""))
  /\ ((absent ResourceGeneratorConfig_fields "unpack_attributes_map" kvs = true ->
         UnpackAttributesMap r = None)
      /\ (present_with ResourceGeneratorConfig_fields "unpack_attributes_map"
            is_empty_object kvs = true ->
          UnpackAttributesMap r = Some Zero.UnpackAttributesMapConfig))
  /\ ((absent ResourceGeneratorConfig_fields "exceptions" kvs = true ->
         Exceptions r = None)
      /\ (present_with ResourceGeneratorConfig_fields "exceptions"
            is_empty_object kvs = true ->
          Exceptions r = Some Zero.ExceptionsConfig))
  /\ ((absent ResourceGeneratorConfig_fields "renames" kvs = true ->
         Renames r = None)
      /\ (present_with ResourceGeneratorConfig_fields "renames"
            is_empty_object kvs = true ->
          Renames r = Some Zero.RenamesConfig))
  /\ ((absent ResourceGeneratorConfig_fields "list_operation" kvs = true ->
         ListOperation r = None)
      /\ (present_with ResourceGeneratorConfig_fields "list_operation"
            is_empty_object kvs = true ->
          ListOperation r = Some Zero.ListOperationConfig)).
Proof.
  repeat split.
  - frame "name_field".
  - intros. repeat match goal with x := _ |- _ => subst x end.
    match goal with Hp : present_with _ _ _ _ = true |- _ => rename Hp into H end.
    unfold decode_ResourceGeneratorConfig.
    apply (struct_present NameField ResourceGeneratorConfig_fields "name_field"
             is_empty_string (Some "") (fun _ => True) kvs);
      [other_fields | | done | exact H | done].
    intros f Hf Hn. simpl in Hf.
    repeat (destruct Hf as [<-|Hf]; [try discriminate Hn|]); try contradiction.
    intros x v d' Hp _. destruct x as [| | |[|? ?]| |]; try discriminate Hp.
    reflexivity.
  - frame "unpack_attributes_map".
  - present "unpack_attributes_map" Zero.UnpackAttributesMapConfig.
  - frame "exceptions".
  - present "exceptions" Zero.ExceptionsConfig.
  - frame "renames".
  - present "renames" Zero.RenamesConfig.
  - frame "list_operation".
  - present "list_operation" Zero.ListOperationConfig.
Qed.

Lemma absent_or_empty_sub_config_witness :
  let r := fst (decode_ResourceGeneratorConfig (JObject Sample.empty_exceptions)
                  Zero.ResourceGeneratorConfig None) in
  Exceptions r = Some Zero.ExceptionsConfig /\ Renames r = None.
Proof.
  pose proof (absent_or_empty_sub_config Sample.empty_exceptions None)
    as (_ & _ & [_ He] & [Hr _] & _).
  split; [exact (He eq_refl) | exact (Hr eq_refl)].
Defined.

(** ** Maps *)

(** An entry of a decoded map is what the last member with its key decodes
    to, from a zero element; the other members do not matter. *)
Lemma fold_map_member_lookup {T : Type} (zero : T) (dec : decoder T)
    (kvs : list (string * json)) (k : string) :
  factors dec ->
  forall (m : gmap string T) (d : decodeState),
    fst (fold_left (map_member zero dec) kvs (m, d)) !! k
    = match last_binding k kvs with
      | Some x => Some (fst (dec x zero None))
      | None => m !! k
      end.
Proof.
  intros Hf. induction kvs as [|kv kvs IH]; intros m d; simpl; [done|].
  unfold map_member at 2. simpl.
  rewrite (Hf (snd kv) zero d).
  destruct (dec (snd kv) zero None) as [t e] eqn:E. simpl.
  rewrite IH. destruct (last_binding k kvs) as [x|]; [done|].
  destruct (String.eqb (fst kv) k) eqn:Ek.
  - apply String.eqb_eq in Ek. subst k. by rewrite lookup_insert_eq, E.
  - apply String.eqb_neq in Ek. by rewrite lookup_insert_ne.
Qed.

Lemma decode_map_lookup {T : Type} ty (zero : T) (dec : decoder T)
    (kvs : list (string * json)) v d :
  factors dec ->
  exists m : gmap string T,
    fst (decode_map ty zero dec (JObject kvs) v d) = Some m
    /\ forall k,
         m !! k = match last_binding k kvs with
                  | Some x => Some (fst (dec x zero None))
                  | None => default ∅ v !! k
                  end.
Proof.
  intros Hf. unfold decode_map.
  pose proof (fun k => fold_map_member_lookup zero dec kvs k Hf (default ∅ v) d) as L.
  destruct (fold_left (map_member zero dec) kvs (default ∅ v, d)) as [m e].
  exists m. split; [done|]. intros k. apply L.
Qed.

(** The entry decoded from a table that renames [f] to [x] gives [f] the
    name [x], whatever the entry held before. *)
Lemma renames_decoded (s : direction) (f x : string) (members : list (string * json))
    (v : OperationRenamesConfig) (d : decodeState) :
  present_with OperationRenamesConfig_fields (direction_tag s) (binds f x) members = true ->
  direction_field s
    (fst (fold_left (struct_member OperationRenamesConfig_fields) members (v, d)))
    ≫= (fun m => m !! f) = Some x.
Proof.
  intros Hp.
  apply (struct_present (fun o => direction_field s o ≫= (fun m => m !! f))
           OperationRenamesConfig_fields (direction_tag s) (binds f x) (Some x)
           (fun _ => True)); try done.
  - intros fld Hfld Hn j o e. simpl in Hfld.
    destruct Hfld as [<-|[<-|[]]]; destruct s; try (by destruct Hn);
      simpl; unfold field;
      by destruct (decode_string_map j _ e).
  - intros fld Hfld Hn j o e Hj _. simpl in Hfld.
    destruct j as [| | | | |fs]; try discriminate Hj. simpl in Hj.
    destruct (last_binding f fs) as [[| | |y| |]|] eqn:Hb; try discriminate Hj.
    apply String.eqb_eq in Hj. subst y.
    assert (E : forall old,
              fst (decode_string_map (JObject fs) old e) ≫= (fun m => m !! f) = Some x).
    { intros old.
      destruct (decode_map_lookup "map[string]string" "" decode_string fs old e
                  factors_string) as [m [Hm L]].
      unfold decode_string_map. rewrite Hm. simpl. by rewrite L, Hb. }
    destruct Hfld as [<-|[<-|[]]]; destruct s; try discriminate Hn;
      simpl; unfold field.
    + specialize (E (InputFields o)).
      by destruct (decode_string_map (JObject fs) (InputFields o) e).
    + specialize (E (OutputFields o)).
      by destruct (decode_string_map (JObject fs) (OutputFields o) e).
Qed.

(** The same, for the entry of the operations map. *)
Lemma renames_entry (s : direction) (f x : string) (t : json) :
  renames s f x t = true ->
  renamed s (fst (decode_OperationRenames t None None)) f = Some x.
Proof.
  destruct t as [| | | | |members]; try discriminate. simpl. intros Hp.
  unfold decode_OperationRenames, decode_ptr, decode_OperationRenamesConfig,
    decode_struct. simpl default.
  pose proof (renames_decoded s f x members Zero.OperationRenamesConfig None Hp) as E.
  destruct (fold_left (struct_member OperationRenamesConfig_fields) members
              (Zero.OperationRenamesConfig, None)) as [o e].
  simpl in *. by destruct (direction_field s o).
Qed.

(** C6. In a renames table, the entry loaded for an operation says what that
    operation's own table says, whatever the tables of the other operations
    say: when the tables of two distinct operations rename the same field,
    to [x] in one and to [y] in the other, looking up the first operation
    gives [x] for the field and looking up the second gives [y].  An
    operation the document does not name keeps the entry it had, and the
    entry of an operation is the same in every document that has the same
    table for it. *)
Theorem renames_per_operation (ops : list (string * json)) (opA opB : string)
    (ta tb : json) (s : direction) (f x y : string)
    (v : option (gmap string (option OperationRenamesConfig))) (d : decodeState) :
  opA <> opB ->
  last_binding opA ops = Some ta ->
  last_binding opB ops = Some tb ->
  renames s f x ta = true ->
  renames s f y tb = true ->
  exists m : gmap string (option OperationRenamesConfig),
    fst (decode_Operations (JObject ops) v d) = Some m
    /\ (m !! opA ≫= fun c => renamed s c f) = Some x
    /\ (m !! opB ≫= fun c => renamed s c f) = Some y
    /\ (forall op, last_binding op ops = None -> m !! op = default ∅ v !! op)
    /\ (forall ops' v' d',
          last_binding opA ops' = Some ta ->
          exists m' : gmap string (option OperationRenamesConfig),
            fst (decode_Operations (JObject ops') v' d') = Some m'
            /\ m' !! opA = m !! opA).
Proof.
  intros _ HA HB Hx Hy.
  destruct (decode_map_lookup "map[string]*model.OperationRenamesConfig" None
              decode_OperationRenames ops v d factors_OperationRenames)
    as [m [Hm L]].
  exists m. split; [exact Hm|].
  split; [|split; [|split]].
  - rewrite L, HA. simpl. by apply renames_entry.
  - rewrite L, HB. simpl. by apply renames_entry.
  - intros op Hop. by rewrite L, Hop.
  - intros ops' v' d' HA'.
    destruct (decode_map_lookup "map[string]*model.OperationRenamesConfig" None
                decode_OperationRenames ops' v' d' factors_OperationRenames)
      as [m' [Hm' L']].
    exists m'. split; [exact Hm'|]. by rewrite L', HA', L, HA.
Qed.

Lemma renames_per_operation_witness :
  exists m : gmap string (option OperationRenamesConfig),
    fst (decode_Operations (JObject Sample.two_renames) None None) = Some m
    /\ (m !! "CreateTopic" ≫= fun c => renamed Input c "Name") = Some "TopicName"
    /\ (m !! "CreateQueue" ≫= fun c => renamed Input c "Name") = Some "QueueName".
Proof.
  destruct (renames_per_operation Sample.two_renames "CreateTopic" "CreateQueue"
              (JObject [ ("input_fields", JObject [ ("Name", JString "TopicName") ]) ])
              (JObject [ ("input_fields", JObject [ ("Name", JString "QueueName") ]) ])
              Input "Name" "TopicName" "QueueName"
              None None ltac:(discriminate) eq_refl eq_refl eq_refl eq_refl)
    as (m & Hm & HA & HB & _).
  exists m. split; [exact Hm|]. split; [exact HA | exact HB].
Defined.

(** The flags an attribute's entry omits are false. *)
Lemma omitted_flags_false (entry : list (string * json)) (d : decodeState) :
  let c := fst (decode_FieldGeneratorConfig (JObject entry) Zero.FieldGeneratorConfig d) in
  (absent FieldGeneratorConfig_fields "is_read_only" entry = true -> IsReadOnly c = false)
  /\ (absent FieldGeneratorConfig_fields "contains_owner_account_id" entry = true ->
      ContainsOwnerAccountID c = false).
Proof.
  split; [frame "is_read_only" | frame "contains_owner_account_id"].
Qed.

(** C10. An attribute listed under [fields] is in the loaded map, and a flag
    its entry omits is false: an entry that is an empty object is read-write
    and not the owner account id.  An attribute that is not listed is not in
    the map at all. *)
Theorem listed_attribute_flags (fs : list (string * json)) (key : string)
    (entry : list (string * json)) (d : decodeState) :
  last_binding key fs = Some (JObject entry) ->
  exists m : gmap string FieldGeneratorConfig,
    fst (decode_Fields (JObject fs) None d) = Some m
    /\ (exists c,
          m !! key = Some c
          /\ (absent FieldGeneratorConfig_fields "is_read_only" entry = true ->
              IsReadOnly c = false)
          /\ (absent FieldGeneratorConfig_fields "contains_owner_account_id" entry = true ->
              ContainsOwnerAccountID c = false)
          /\ (entry = [] -> c = Zero.FieldGeneratorConfig))
    /\ (forall other, last_binding other fs = None -> m !! other = None).
Proof.
  intros Hk.
  destruct (decode_map_lookup "map[string]model.FieldGeneratorConfig"
              Zero.FieldGeneratorConfig decode_FieldGeneratorConfig fs None d
              factors_FieldGeneratorConfig) as [m [Hm L]].
  exists m. split; [exact Hm|]. split.
  - exists (own_field (JObject entry)). rewrite L, Hk. split; [done|].
    destruct (omitted_flags_false entry None) as [H1 H2].
    repeat split; [exact H1 | exact H2 |]. by intros ->.
  - intros other Ho. by rewrite L, Ho.
Qed.

Lemma listed_attribute_flags_witness :
  exists m : gmap string FieldGeneratorConfig,
    fst (decode_Fields (JObject Sample.attributes) None None) = Some m
    /\ m !! "DisplayName" = Some Zero.FieldGeneratorConfig
    /\ m !! "SubscriptionsDeleted" = None.
Proof.
  destruct (listed_attribute_flags Sample.attributes "DisplayName" [] None eq_refl)
    as (m & Hm & (c & Hc & _ & _ & Hz) & Hother).
  exists m. split; [exact Hm|]. split.
  - rewrite Hc. f_equal. exact (Hz eq_refl).
  - exact (Hother "SubscriptionsDeleted" eq_refl).
Defined.

(** ** Keys the schema does not know *)

(** A key is known when the decoder resolves it to a field: by its exact
    tag, or by the case folding of [encoding/json]. *)
Example exact_key_is_known :
  names GeneratorConfig_fields "resources" "resources" = true.
Proof. reflexivity. Qed.

Example folded_key_is_known :
  names GeneratorConfig_fields "Resources" "resources" = true.
Proof. reflexivity. Qed.

Example other_key_is_unknown :
  lookupField GeneratorConfig_fields "resource" = None.
Proof. reflexivity. Qed.

Lemma blind_keep {T} (dec : decoder T) : blind keep dec.
Proof. by split. Qed.

Lemma blind_ptr {T} (zero : T) s dec : blind s dec -> blind s (decode_ptr zero dec).
Proof.
  intros [H1 H2]. split; [|exact H2].
  intros x v d. unfold decode_ptr.
  destruct x;
    try (by rewrite (proj2 (H2 JNull) eq_refl));
    match goal with
    | |- context [s ?x] =>
        let E := fresh "E" in
        destruct (s x) eqn:E;
          [apply (proj1 (H2 _)) in E; discriminate E | rewrite <- E, H1; reflexivity ..]
    end.
Qed.

Lemma blind_field {T A} (get : T -> A) set s dec :
  blind s dec -> blind s (field get set dec).
Proof.
  intros [H1 H2]. split; [|exact H2].
  intros x v d. unfold field. by rewrite H1.
Qed.

Lemma blind_map {T} ty (zero : T) s dec :
  blind s dec -> blind (strip_map s) (decode_map ty zero dec).
Proof.
  intros [H1 _]. split.
  - intros x v d. destruct x; try done. simpl.
    generalize (default ∅ v, d). induction kvs as [|kv kvs IH]; intros st; simpl; [done|].
    assert (E : map_member zero dec st (fst kv, s (snd kv)) = map_member zero dec st kv)
      by (unfold map_member; simpl; by rewrite H1).
    rewrite E. apply IH.
  - intros x. by destruct x.
Qed.

Lemma blind_struct {T} ty (fields : list (string * decoder T)) strips :
  same_tags (fun dec s => blind s dec) fields strips ->
  blind (strip_struct strips) (decode_struct ty fields).
Proof.
  intros H. split.
  - intros x v d. destruct x; try done. simpl.
    generalize (v, d). induction kvs as [|kv kvs IH]; intros st; simpl; [done|].
    rewrite fold_left_app, <- IH. f_equal.
    unfold strip_member, struct_member.
    pose proof (lookupField_same_tags _ fields strips (fst kv) H) as L.
    destruct (lookupField fields (fst kv)) as [f|] eqn:Lf,
             (lookupField strips (fst kv)) as [g|]; try done.
    destruct L as [_ [L _]]. simpl. by rewrite Lf, L.
  - intros x. by destruct x.
Qed.

#[local] Hint Resolve blind_keep blind_ptr blind_field blind_map : schema.

Ltac strip_tags :=
  unfold same_tags;
  repeat (constructor;
    [simpl; split; [reflexivity|];
     unfold decode_Fields, decode_Codes, decode_string_map, decode_strings,
       decode_Operations, decode_OperationRenames, decode_Resources;
     auto with schema|]);
  constructor.

Lemma blind_FieldGeneratorConfig :
  blind (strip_struct FieldGeneratorConfig_strip) decode_FieldGeneratorConfig.
Proof. apply blind_struct. strip_tags. Qed.
#[local] Hint Resolve blind_FieldGeneratorConfig : schema.

Lemma blind_UnpackAttributesMapConfig :
  blind (strip_struct UnpackAttributesMapConfig_strip) decode_UnpackAttributesMapConfig.
Proof. apply blind_struct. strip_tags. Qed.
#[local] Hint Resolve blind_UnpackAttributesMapConfig : schema.

Lemma blind_ExceptionsConfig :
  blind (strip_struct ExceptionsConfig_strip) decode_ExceptionsConfig.
Proof. apply blind_struct. strip_tags. Qed.
#[local] Hint Resolve blind_ExceptionsConfig : schema.

Lemma blind_OperationRenamesConfig :
  blind (strip_struct OperationRenamesConfig_strip) decode_OperationRenamesConfig.
Proof. apply blind_struct. strip_tags. Qed.
#[local] Hint Resolve blind_OperationRenamesConfig : schema.

Lemma blind_RenamesConfig :
  blind (strip_struct RenamesConfig_strip) decode_RenamesConfig.
Proof. apply blind_struct. strip_tags. Qed.
#[local] Hint Resolve blind_RenamesConfig : schema.

Lemma blind_ListOperationConfig :
  blind (strip_struct ListOperationConfig_strip) decode_ListOperationConfig.
Proof. apply blind_struct. strip_tags. Qed.
#[local] Hint Resolve blind_ListOperationConfig : schema.

Lemma blind_ResourceGeneratorConfig :
  blind (strip_struct ResourceGeneratorConfig_strip) decode_ResourceGeneratorConfig.
Proof. apply blind_struct. strip_tags. Qed.
#[local] Hint Resolve blind_ResourceGeneratorConfig : schema.

Lemma blind_IgnoreSpec : blind (strip_struct IgnoreSpec_strip) decode_IgnoreSpec.
Proof. apply blind_struct. strip_tags. Qed.
#[local] Hint Resolve blind_IgnoreSpec : schema.

Lemma blind_GeneratorConfig : blind strip_unknown decode_GeneratorConfig.
Proof. apply blind_struct. strip_tags. Qed.

(** Decoding does not see the members [strip_unknown] removes. *)
Lemma decode_document_strip_unknown doc gc :
  decode_document (strip_unknown doc) gc = decode_document doc gc.
Proof. apply blind_GeneratorConfig. Qed.

(** Removing members does not nest a document deeper. *)
Lemma members_depth_app (l1 l2 : list (string * json)) :
  fold_right (fun kv acc => N.max (json_depth (snd kv)) acc) 0%N (l1 ++ l2)
  = N.max (fold_right (fun kv acc => N.max (json_depth (snd kv)) acc) 0%N l1)
          (fold_right (fun kv acc => N.max (json_depth (snd kv)) acc) 0%N l2).
Proof.
  induction l1 as [|kv l1 IH]; simpl; [by rewrite N.max_0_l|].
  by rewrite IH, N.max_assoc.
Qed.

Lemma shrinks_keep : shrinks keep.
Proof. intros x. unfold keep. lia. Qed.

Lemma shrinks_map s : shrinks s -> shrinks (strip_map s).
Proof.
  intros H x. destruct x; simpl; try lia.
  apply N.add_le_mono_l.
  induction kvs as [|kv kvs IH]; simpl; [lia|].
  pose proof (H (snd kv)). lia.
Qed.

Lemma shrinks_struct (strips : list (string * stripper)) :
  (forall f, In f strips -> shrinks (snd f)) -> shrinks (strip_struct strips).
Proof.
  intros H x. destruct x; simpl; try lia.
  apply N.add_le_mono_l.
  induction kvs as [|kv kvs IH]; simpl; [lia|].
  rewrite members_depth_app. unfold strip_member at 1.
  destruct (lookupField strips (fst kv)) as [f|] eqn:L; simpl.
  - apply lookupField_In in L. pose proof (H f L (snd kv)). lia.
  - lia.
Qed.

Ltac each_strip :=
  let f := fresh "f" in
  let Hf := fresh "Hf" in
  intros f Hf; simpl in Hf;
  repeat (destruct Hf as [<-|Hf];
          [simpl; auto using shrinks_keep, shrinks_map, shrinks_struct|]);
  try contradiction.

Lemma shrinks_strip_unknown : shrinks strip_unknown.
Proof.
  assert (H1 : shrinks (strip_struct FieldGeneratorConfig_strip))
    by (apply shrinks_struct; each_strip).
  assert (H2 : shrinks (strip_struct UnpackAttributesMapConfig_strip))
    by (apply shrinks_struct; each_strip).
  assert (H3 : shrinks (strip_struct ExceptionsConfig_strip))
    by (apply shrinks_struct; each_strip).
  assert (H4 : shrinks (strip_struct OperationRenamesConfig_strip))
    by (apply shrinks_struct; each_strip).
  assert (H5 : shrinks (strip_struct RenamesConfig_strip))
    by (apply shrinks_struct; each_strip).
  assert (H6 : shrinks (strip_struct ListOperationConfig_strip))
    by (apply shrinks_struct; each_strip).
  assert (H7 : shrinks (strip_struct ResourceGeneratorConfig_strip))
    by (apply shrinks_struct; each_strip).
  assert (H8 : shrinks (strip_struct IgnoreSpec_strip))
    by (apply shrinks_struct; each_strip).
  apply shrinks_struct; each_strip.
Qed.

(** What [strip_unknown] leaves of the sample document. *)
Example strip_unknown_with_extras :
  strip_unknown Sample.with_extras
  = JObject
      [ ("resources", JObject
          [ ("Topic", JObject
              [ ("name_field", JString "Name");
                ("exceptions", JObject
                  [ ("codes", JObject [ ("404", JString "NotFoundException") ]) ]) ]) ]);
        ("ignore", JObject [ ("shape_names", JArray [ JString "Tag" ]) ]) ].
Proof. reflexivity. Qed.

(** A key the schema does not know can make a load fail, so that C9 needs
    its bound on the nesting: the sample document is type-well-formed and
    is refused for the nesting under its unknown key, while the same
    document without that key loads. *)
Lemma unknown_key_can_fail_the_load :
  ~ (forall path path' contents contents' doc,
       Sample.ReadFile Nesting.files path = Ok contents ->
       Sample.yamlToJSON Nesting.table contents = Ok doc ->
       Sample.ReadFile Nesting.files path' = Ok contents' ->
       Sample.yamlToJSON Nesting.table contents' = Ok (strip_unknown doc) ->
       well_typed doc = true ->
       exists gc,
         NewGeneratorConfig (Sample.ReadFile Nesting.files)
           (Sample.yamlToJSON Nesting.table) path = (Some gc, None)
         /\ NewGeneratorConfig (Sample.ReadFile Nesting.files)
              (Sample.yamlToJSON Nesting.table) path' = (Some gc, None)).
Proof.
  intros H.
  destruct (H "deep.yaml" "plain.yaml" "deep" "plain" Nesting.deep
              eq_refl eq_refl eq_refl eq_refl eq_refl) as [gc [Hgc _]].
  rewrite (proj2 deep_is_refused) in Hgc. discriminate Hgc.
Qed.

(** C9. Keys the schema does not know, at the top level or inside a
    sub-config object, cause no error and change nothing, as long as the
    document with them is nested no deeper than [maxNestingDepth]: a
    document that is type-well-formed on the keys the schema knows then
    loads successfully, and the configuration loaded is the one loaded from
    the same document without those keys. *)
Theorem unknown_keys_ignored {IOE YE : Type}
    (ReadFile : string -> result IOE string) (yamlToJSON : string -> result YE json)
    (path path' contents contents' : string) (doc : json) :
  ReadFile path = Ok contents ->
  yamlToJSON contents = Ok doc ->
  ReadFile path' = Ok contents' ->
  yamlToJSON contents' = Ok (strip_unknown doc) ->
  well_typed doc = true ->
  (json_depth doc <=? maxNestingDepth)%N = true ->
  exists gc,
    NewGeneratorConfig ReadFile yamlToJSON path = (Some gc, None)
    /\ NewGeneratorConfig ReadFile yamlToJSON path' = (Some gc, None).
Proof.
  intros HR HY HR' HY' Hwt Hd.
  exists (fst (decode_document doc Zero.GeneratorConfig)). split.
  - apply (NewGeneratorConfig_well_typed ReadFile yamlToJSON path contents doc HR HY Hd Hwt).
  - assert (Hd' : (json_depth (strip_unknown doc) <=? maxNestingDepth)%N = true).
    { apply N.leb_le. apply N.leb_le in Hd.
      pose proof (shrinks_strip_unknown doc). lia. }
    rewrite (NewGeneratorConfig_shallow ReadFile yamlToJSON path' contents' _ HR' HY' Hd').
    rewrite decode_document_strip_unknown.
    apply (decode_document_well_typed doc Zero.GeneratorConfig) in Hwt.
    destruct (decode_document doc Zero.GeneratorConfig) as [gc e]. simpl in *. by subst.
Qed.

Lemma unknown_keys_ignored_witness :
  exists gc,
    NewGeneratorConfig (Sample.ReadFile Sample.files) (Sample.yamlToJSON Sample.table)
      "extras.yaml" = (Some gc, None)
    /\ NewGeneratorConfig (Sample.ReadFile Sample.files) (Sample.yamlToJSON Sample.table)
         "plain.yaml" = (Some gc, None).
Proof.
  exact (unknown_keys_ignored (Sample.ReadFile Sample.files)
           (Sample.yamlToJSON Sample.table) "extras.yaml" "plain.yaml"
           "with_extras" "without_extras" Sample.with_extras
           eq_refl eq_refl eq_refl eq_refl eq_refl eq_refl).
Defined.

(** ** Serializing and loading back *)



































(** * Further properties of the loader and of the schema *)

(** ** The two results of a load *)

(** X1. [NewGeneratorConfig] returns either a config and a nil error, or a
    nil config and an error: never both, never neither. *)
Theorem NewGeneratorConfig_one_result {IOE YE : Type}
    (ReadFile : string -> result IOE string) (yamlToJSON : string -> result YE json)
    (path : string) :
  (exists gc, NewGeneratorConfig ReadFile yamlToJSON path = (Some gc, None))
  \/ (exists err, NewGeneratorConfig ReadFile yamlToJSON path = (None, Some err)).
Proof.
  unfold NewGeneratorConfig.
  destruct (ReadFile path) as [contents|e]; [|right; by eexists].
  destruct (yaml_Unmarshal yamlToJSON contents Zero.GeneratorConfig) as [g [e|]].
  - right. by eexists.
  - left. by eexists.
Qed.

(** X2. The error of a failed load is the error of the step that failed:
    the error of [ioutil.ReadFile] when the file cannot be read; otherwise a
    schema error, which is the conversion error when the text is not a
    document, the syntax error of a document nested deeper than
    [maxNestingDepth], and the type error of the decoder for any other
    document. *)
Theorem NewGeneratorConfig_error_kind {IOE YE : Type}
    (ReadFile : string -> result IOE string) (yamlToJSON : string -> result YE json)
    (path : string) (cfg : option GeneratorConfig) (err : error IOE YE) :
  NewGeneratorConfig ReadFile yamlToJSON path = (cfg, Some err) ->
  match ReadFile path with
  | Err e => err = IOError e
  | Ok contents =>
      is_schema_error err = true
      /\ match yamlToJSON contents with
         | Err e => err = ConvertError e
         | Ok doc =>
             if (maxNestingDepth <? json_depth doc)%N
             then err = SyntaxError "exceeded max depth"
             else exists e, err = UnmarshalError e
                            /\ snd (decode_document doc Zero.GeneratorConfig) = Some e
         end
  end.
Proof.
  unfold NewGeneratorConfig, yaml_Unmarshal, json_Unmarshal.
  destruct (ReadFile path) as [contents|e]; [|by intros [= _ <-]].
  destruct (yamlToJSON contents) as [doc|e]; [|by intros [= _ <-]].
  destruct (maxNestingDepth <? json_depth doc)%N; [by intros [= _ <-]|].
  destruct (decode_document doc Zero.GeneratorConfig) as [g [e|]]; simpl; [|done].
  intros [= _ <-]. split; [done|]. by exists e.
Qed.

Lemma NewGeneratorConfig_error_kind_witness :
  match Sample.ReadFile Nesting.files "deep.yaml" with
  | Err e => SyntaxError "exceeded max depth"
             = (IOError e : error Sample.errno string)
  | Ok contents =>
      is_schema_error (SyntaxError "exceeded max depth" : error Sample.errno string) = true
      /\ match Sample.yamlToJSON Nesting.table contents with
         | Err e => SyntaxError "exceeded max depth"
                    = (ConvertError e : error Sample.errno string)
         | Ok doc =>
             if (maxNestingDepth <? json_depth doc)%N
             then SyntaxError "exceeded max depth"
                  = (SyntaxError "exceeded max depth" : error Sample.errno string)
             else exists e, SyntaxError "exceeded max depth"
                            = (UnmarshalError e : error Sample.errno string)
                            /\ snd (decode_document doc Zero.GeneratorConfig) = Some e
         end
  end.
Proof.
  apply (NewGeneratorConfig_error_kind (Sample.ReadFile Nesting.files)
           (Sample.yamlToJSON Nesting.table) "deep.yaml" None
           (SyntaxError "exceeded max depth")).
  vm_compute. reflexivity.
Defined.

(** X3. A document that was read and converted loads successfully exactly
    when it is nested no deeper than [maxNestingDepth] and is
    type-well-formed.  Nested deeper, it gives a nil config and the syntax
    error of the nesting; otherwise a value of the wrong JSON type under a
    key the schema knows, or a [codes] key that is not an [int], gives a nil
    config and the decoder's type error. *)
Theorem NewGeneratorConfig_loads_iff_well_typed {IOE YE : Type}
    (ReadFile : string -> result IOE string) (yamlToJSON : string -> result YE json)
    (path contents : string) (doc : json) :
  ReadFile path = Ok contents ->
  yamlToJSON contents = Ok doc ->
  ((exists gc, NewGeneratorConfig ReadFile yamlToJSON path = (Some gc, None))
   <-> (json_depth doc <=? maxNestingDepth)%N = true /\ well_typed doc = true)
  /\ (NewGeneratorConfig ReadFile yamlToJSON path
      = (None, Some (SyntaxError "exceeded max depth"))
      <-> (json_depth doc <=? maxNestingDepth)%N = false)
  /\ ((exists e, NewGeneratorConfig ReadFile yamlToJSON path
                 = (None, Some (UnmarshalError e)))
      <-> (json_depth doc <=? maxNestingDepth)%N = true /\ well_typed doc = false).
Proof.
  intros HR HY.
  rewrite (NewGeneratorConfig_read ReadFile yamlToJSON path contents doc HR HY).
  rewrite N.leb_antisym.
  destruct (maxNestingDepth <? json_depth doc)%N; simpl.
  { split; [|split]; split; try done.
    - by intros [g [=]].
    - by intros [? ?].
    - by intros [e [=]].
    - by intros [? ?]. }
  pose proof (decode_document_well_typed doc Zero.GeneratorConfig) as Hwt.
  destruct (decode_document doc Zero.GeneratorConfig) as [gc [e|]]; simpl in Hwt.
  - assert (Hf : well_typed doc = false).
    { apply not_true_is_false. intros Ht. by apply Hwt in Ht. }
    rewrite Hf. split; [|split]; split; try done.
    + by intros [g [=]].
    + by intros [? ?].
    + intros _. by exists e.
  - rewrite (proj1 Hwt eq_refl). split; [|split]; split; try done.
    + intros _. by exists gc.
    + by intros [e [=]].
    + by intros [? ?].
Qed.

Lemma NewGeneratorConfig_loads_iff_well_typed_witness :
  ((exists gc,
      NewGeneratorConfig (Sample.ReadFile [ ("flag.yaml", "flag") ])
        (Sample.yamlToJSON
           [ ("flag", JObject [ ("ignore", JObject [ ("operations", JString "all") ]) ]) ])
        "flag.yaml" = (Some gc, None))
   <-> (json_depth (JObject [ ("ignore", JObject [ ("operations", JString "all") ]) ])
        <=? maxNestingDepth)%N = true
       /\ well_typed (JObject [ ("ignore", JObject [ ("operations", JString "all") ]) ])
          = true)
  /\ (NewGeneratorConfig (Sample.ReadFile [ ("flag.yaml", "flag") ])
        (Sample.yamlToJSON
           [ ("flag", JObject [ ("ignore", JObject [ ("operations", JString "all") ]) ]) ])
        "flag.yaml" = (None, Some (SyntaxError "exceeded max depth"))
      <-> (json_depth (JObject [ ("ignore", JObject [ ("operations", JString "all") ]) ])
           <=? maxNestingDepth)%N = false)
  /\ ((exists e,
         NewGeneratorConfig (Sample.ReadFile [ ("flag.yaml", "flag") ])
           (Sample.yamlToJSON
              [ ("flag", JObject [ ("ignore", JObject [ ("operations", JString "all") ]) ]) ])
           "flag.yaml" = (None, Some (UnmarshalError e)))
      <-> (json_depth (JObject [ ("ignore", JObject [ ("operations", JString "all") ]) ])
           <=? maxNestingDepth)%N = true
          /\ well_typed (JObject [ ("ignore", JObject [ ("operations", JString "all") ]) ])
             = false).
Proof.
  exact (NewGeneratorConfig_loads_iff_well_typed
           (Sample.ReadFile [ ("flag.yaml", "flag") ])
           (Sample.yamlToJSON
              [ ("flag", JObject [ ("ignore", JObject [ ("operations", JString "all") ]) ]) ])
           "flag.yaml" "flag"
           (JObject [ ("ignore", JObject [ ("operations", JString "all") ]) ])
           eq_refl eq_refl).
Defined.

(** ** Null, and empty collections *)

(** The field named is set to [a] by every value accepted by [p], whatever it
    held: the obligation of [struct_present] when nothing is assumed of the
    old value. *)
Ltac this_field_always :=
  let f := fresh "f" in
  let Hf := fresh "Hf" in
  let Hn := fresh "Hn" in
  let x := fresh "x" in
  let v := fresh "v" in
  let d := fresh "d" in
  let Hp := fresh "Hp" in
  intros f Hf Hn; simpl in Hf;
  repeat (destruct Hf as [<-|Hf];
          [first [ discriminate Hn
                 | intros x v d Hp _; destruct v;
                   destruct x as [| | | |[|? ?]|[|? ?]]; try discriminate Hp;
                   reflexivity ]|]);
  try contradiction.

Ltac this_map_field :=
  let f := fresh "f" in
  let Hf := fresh "Hf" in
  let Hn := fresh "Hn" in
  let x := fresh "x" in
  let v := fresh "v" in
  let d := fresh "d" in
  let Hp := fresh "Hp" in
  let HP := fresh "HP" in
  intros f Hf Hn; simpl in Hf;
  repeat (destruct Hf as [<-|Hf];
          [first [ discriminate Hn
                 | intros x v d Hp HP; destruct v; simpl in HP;
                   destruct x as [| | | | |[|? ?]]; try discriminate Hp;
                   destruct HP as [->| ->]; reflexivity ]|]);
  try contradiction.

Ltac unfold_structs :=
  unfold decode_GeneratorConfig, decode_IgnoreSpec, decode_ResourceGeneratorConfig,
    decode_UnpackAttributesMapConfig, decode_FieldGeneratorConfig,
    decode_ExceptionsConfig, decode_RenamesConfig, decode_OperationRenamesConfig,
    decode_ListOperationConfig.

Ltac always name :=
  intros;
  repeat match goal with x := _ |- _ => subst x end;
  match goal with Hpres : present_with _ _ _ _ = true |- _ => revert Hpres end;
  unfold_structs;
  match goal with
  | |- present_with _ _ ?p ?kvs = true ->
       ?get (fst (decode_struct _ ?fields (JObject ?kvs) ?v ?d)) = ?a =>
      let H := fresh "H" in
      intros H;
      apply (struct_present get fields name p a (fun _ => True) kvs);
        [other_fields | this_field_always | exact I | exact H | exact I]
  end.

Ltac empty_map name :=
  intros;
  repeat match goal with x := _ |- _ => subst x end;
  match goal with Hpres : present_with _ _ _ _ = true |- _ => revert Hpres end;
  unfold_structs;
  match goal with
  | |- present_with _ _ ?p ?kvs = true ->
       ?get (fst (decode_struct _ ?fields (JObject ?kvs) ?v ?d)) = ?a =>
      let H := fresh "H" in
      intros H;
      apply (struct_present get fields name p a nil_or_empty kvs);
        [other_fields | this_map_field | by right | exact H | by left]
  end.

(** X4. A sub-config key that is present with the value [null] gives a nil
    pointer, as if the key were absent: [null] never allocates the
    sub-config. *)
Theorem null_sub_config (kvs : list (string * json)) (d : decodeState) :
  let r := fst (decode_ResourceGeneratorConfig (JObject kvs)
                  Zero.ResourceGeneratorConfig d) in
  (present_with ResourceGeneratorConfig_fields "name_field" is_null kvs = true ->
     NameField r = None)
  /\ (present_with ResourceGeneratorConfig_fields "unpack_attributes_map" is_null kvs = true ->
      UnpackAttributesMap r = None)
  /\ (present_with ResourceGeneratorConfig_fields "exceptions" is_null kvs = true ->
      Exceptions r = None)
  /\ (present_with ResourceGeneratorConfig_fields "renames" is_null kvs = true ->
      Renames r = None)
  /\ (present_with ResourceGeneratorConfig_fields "list_operation" is_null kvs = true ->
      ListOperation r = None).
Proof.
  repeat split.
  - always "name_field".
  - always "unpack_attributes_map".
  - always "exceptions".
  - always "renames".
  - always "list_operation".
Qed.

Lemma null_sub_config_witness :
  Exceptions (fst (decode_ResourceGeneratorConfig
                     (JObject [ ("name_field", JString "Name"); ("exceptions", JNull) ])
                     Zero.ResourceGeneratorConfig None)) = None.
Proof.
  pose proof (null_sub_config
                [ ("name_field", JString "Name"); ("exceptions", JNull) ] None)
    as (_ & _ & He & _).
  exact (He eq_refl).
Defined.

(** X5. A collection key that is present with an empty value gives a non-nil
    empty collection, which is not the nil collection of a missing key: [{}]
    for a map field gives the empty map and [[]] for a list field gives the
    empty list. *)
Theorem empty_collection_is_not_nil :
  (forall kvs d,
      present_with GeneratorConfig_fields "resources" is_empty_object kvs = true ->
      Resources (fst (decode_GeneratorConfig (JObject kvs) Zero.GeneratorConfig d))
      = Some ∅)
  /\ (forall kvs d,
        let v := fst (decode_IgnoreSpec (JObject kvs) Zero.IgnoreSpec d) in
        (present_with IgnoreSpec_fields "operations" is_empty_array kvs = true ->
           Ignore_Operations v = Some [])
        /\ (present_with IgnoreSpec_fields "resource_names" is_empty_array kvs = true ->
            ResourceNames v = Some [])
        /\ (present_with IgnoreSpec_fields "shape_names" is_empty_array kvs = true ->
            ShapeNames v = Some []))
  /\ (forall kvs d,
        present_with UnpackAttributesMapConfig_fields "fields" is_empty_object kvs = true ->
        Fields (fst (decode_UnpackAttributesMapConfig (JObject kvs)
                       Zero.UnpackAttributesMapConfig d)) = Some ∅)
  /\ (forall kvs d,
        present_with ExceptionsConfig_fields "codes" is_empty_object kvs = true ->
        Codes (fst (decode_ExceptionsConfig (JObject kvs) Zero.ExceptionsConfig d))
        = Some ∅)
  /\ (forall kvs d,
        present_with RenamesConfig_fields "operations" is_empty_object kvs = true ->
        Renames_Operations
          (fst (decode_RenamesConfig (JObject kvs) Zero.RenamesConfig d)) = Some ∅)
  /\ (forall kvs d,
        let v := fst (decode_OperationRenamesConfig (JObject kvs)
                        Zero.OperationRenamesConfig d) in
        (present_with OperationRenamesConfig_fields "input_fields" is_empty_object kvs = true ->
           InputFields v = Some ∅)
        /\ (present_with OperationRenamesConfig_fields "output_fields" is_empty_object kvs = true ->
            OutputFields v = Some ∅))
  /\ (forall kvs d,
        present_with ListOperationConfig_fields "match_fields" is_empty_array kvs = true ->
        MatchFields
          (fst (decode_ListOperationConfig (JObject kvs) Zero.ListOperationConfig d))
        = Some []).
Proof.
  repeat split.
  - empty_map "resources".
  - always "operations".
  - always "resource_names".
  - always "shape_names".
  - empty_map "fields".
  - empty_map "codes".
  - empty_map "operations".
  - empty_map "input_fields".
  - empty_map "output_fields".
  - always "match_fields".
Qed.

Lemma empty_collection_is_not_nil_witness :
  Resources (fst (decode_GeneratorConfig (JObject [ ("resources", JObject []) ])
                    Zero.GeneratorConfig None)) = Some ∅.
Proof.
  exact (proj1 empty_collection_is_not_nil [ ("resources", JObject []) ] None eq_refl).
Defined.

(** ** What a loaded map holds *)

Lemma last_binding_is_Some k kvs :
  is_Some (last_binding k kvs) <-> In k (List.map fst kvs).
Proof.
  induction kvs as [|kv kvs IH]; simpl.
  - split; [by intros [? ?]|done].
  - destruct (last_binding k kvs) as [x|].
    + split; [intros _; right; apply IH; by eexists | by eexists].
    + destruct (String.eqb_spec (fst kv) k) as [->|Hne].
      * split; [by left | by eexists].
      * split; [by intros [? ?]|]. intros [?|Hin]; [done|].
        apply IH in Hin. by destruct Hin.
Qed.

Lemma last_binding_In k x kvs : last_binding k kvs = Some x -> In (k, x) kvs.
Proof.
  induction kvs as [|[k' y] kvs IH]; simpl; [done|].
  destruct (last_binding k kvs) as [z|].
  - intros [= ->]. right. by apply IH.
  - destruct (String.eqb_spec k' k) as [->|Hne]; [|done].
    intros [= ->]. by left.
Qed.

Lemma last_binding_NoDup k x kvs :
  List.NoDup (List.map fst kvs) -> In (k, x) kvs -> last_binding k kvs = Some x.
Proof.
  induction kvs as [|[k' y] kvs IH]; simpl; [done|].
  intros Hnd Hin. apply List.NoDup_cons_iff in Hnd as [Hk' Hnd].
  destruct Hin as [[= -> ->]|Hin].
  - destruct (last_binding k kvs) as [z|] eqn:E.
    + destruct Hk'. apply last_binding_is_Some. rewrite E. by eexists.
    + by rewrite String.eqb_refl.
  - by rewrite (IH Hnd Hin).
Qed.

(** X6. The loaded [Resources] map has an entry exactly for the resource
    names the document lists, by their exact spelling: a listed resource is
    there even when its override is [null] or empty, then with the zero
    override, and its entry is what its own override says. *)
Theorem resources_are_the_listed_names (rs : list (string * json)) (d : decodeState) :
  exists m : gmap string ResourceGeneratorConfig,
    fst (decode_Resources (JObject rs) None d) = Some m
    /\ (forall name, is_Some (m !! name) <-> In name (List.map fst rs))
    /\ (forall name override,
          last_binding name rs = Some override -> m !! name = Some (own_resource override))
    /\ (forall name,
          last_binding name rs = Some JNull \/ last_binding name rs = Some (JObject []) ->
          m !! name = Some Zero.ResourceGeneratorConfig).
Proof.
  destruct (decode_map_lookup "map[string]model.ResourceGeneratorConfig"
              Zero.ResourceGeneratorConfig decode_ResourceGeneratorConfig rs None d
              factors_ResourceGeneratorConfig) as [m [Hm L]].
  exists m. split; [exact Hm|].
  assert (Hown : forall name override,
            last_binding name rs = Some override ->
            m !! name = Some (own_resource override)).
  { intros name override Hb. by rewrite L, Hb. }
  repeat split.
  - intros Hs. apply last_binding_is_Some. rewrite L in Hs.
    destruct (last_binding name rs); [by eexists|]. simpl in Hs.
    rewrite lookup_empty in Hs. by destruct Hs.
  - intros Hin. apply last_binding_is_Some in Hin as [x Hx].
    rewrite (Hown name x Hx). by eexists.
  - exact Hown.
  - intros name [Hb|Hb]; by rewrite (Hown name _ Hb).
Qed.

Lemma resources_are_the_listed_names_witness :
  exists m : gmap string ResourceGeneratorConfig,
    fst (decode_Resources
           (JObject [ ("Topic", JObject [ ("name_field", JString "Name") ]);
                      ("Queue", JNull) ]) None None) = Some m
    /\ m !! "Queue" = Some Zero.ResourceGeneratorConfig
    /\ (is_Some (m !! "queue") <-> In "queue" [ "Topic"; "Queue" ]).
Proof.
  destruct (resources_are_the_listed_names
              [ ("Topic", JObject [ ("name_field", JString "Name") ]);
                ("Queue", JNull) ] None)
    as (m & Hm & Hdom & _ & Hzero).
  exists m. split; [exact Hm|]. split.
  - exact (Hzero "Queue" (or_introl eq_refl)).
  - exact (Hdom "queue").
Defined.

(** X7. Permuting the members of the [resources] object, when no name occurs
    twice, does not change the loaded map: the order in which a document
    lists its resources does not matter. *)
Theorem resources_order_irrelevant (rs rs' : list (string * json))
    (v : option (gmap string ResourceGeneratorConfig)) (d d' : decodeState) :
  List.NoDup (List.map fst rs) ->
  Permutation rs rs' ->
  fst (decode_Resources (JObject rs) v d) = fst (decode_Resources (JObject rs') v d').
Proof.
  intros Hnd Hperm.
  destruct (decode_map_lookup "map[string]model.ResourceGeneratorConfig"
              Zero.ResourceGeneratorConfig decode_ResourceGeneratorConfig rs v d
              factors_ResourceGeneratorConfig) as [m [Hm L]].
  destruct (decode_map_lookup "map[string]model.ResourceGeneratorConfig"
              Zero.ResourceGeneratorConfig decode_ResourceGeneratorConfig rs' v d'
              factors_ResourceGeneratorConfig) as [m' [Hm' L']].
  unfold decode_Resources. rewrite Hm, Hm'. f_equal.
  apply map_eq. intros k. rewrite L, L'.
  assert (Hnd' : List.NoDup (List.map fst rs')).
  { eapply Permutation_NoDup; [|exact Hnd]. by apply Permutation_map. }
  assert (E : last_binding k rs = last_binding k rs').
  { destruct (last_binding k rs) as [x|] eqn:E1.
    - symmetry. apply last_binding_NoDup; [done|].
      eapply Permutation_in; [exact Hperm|]. by apply last_binding_In.
    - destruct (last_binding k rs') as [x'|] eqn:E2; [|done].
      apply last_binding_In in E2.
      apply (Permutation_in _ (Permutation_sym Hperm)) in E2.
      apply (last_binding_NoDup _ _ _ Hnd) in E2. congruence. }
  by rewrite E.
Qed.

Lemma resources_order_irrelevant_witness :
  fst (decode_Resources
         (JObject [ ("Topic", JObject [ ("name_field", JString "Name") ]);
                    ("Queue", JNull) ]) None None)
  = fst (decode_Resources
           (JObject [ ("Queue", JNull);
                      ("Topic", JObject [ ("name_field", JString "Name") ]) ]) None None).
Proof.
  apply resources_order_irrelevant.
  - repeat constructor; simpl; intros H;
      repeat (destruct H as [H|H]; [discriminate H|]); exact H.
  - apply perm_swap.
Defined.

(** ** Exception codes *)

Lemma fold_int_map_member_lookup {T : Type} (zero : T) (dec : decoder T)
    (kvs : list (string * json)) (n : Z) :
  factors dec ->
  forall (m : gmap Z T) (d : decodeState),
    fst (fold_left (int_map_member zero dec) kvs (m, d)) !! n
    = match last_int_binding n kvs with
      | Some x => Some (fst (dec x zero None))
      | None => m !! n
      end.
Proof.
  intros Hf. induction kvs as [|kv kvs IH]; intros m d; simpl; [done|].
  unfold int_map_member at 2. simpl.
  rewrite (Hf (snd kv) zero d).
  destruct (dec (snd kv) zero None) as [t e] eqn:E. simpl.
  destruct (ParseInt (fst kv)) as [n'|] eqn:Ep; rewrite IH;
    destruct (last_int_binding n kvs) as [x|]; try done.
  case_bool_decide as Hn.
  - injection Hn as ->. by rewrite lookup_insert_eq, E.
  - rewrite lookup_insert_ne; [done|]. by intros ->.
Qed.

Lemma last_int_binding_is_Some n kvs :
  is_Some (last_int_binding n kvs)
  <-> exists k, In k (List.map fst kvs) /\ ParseInt k = Some n.
Proof.
  induction kvs as [|kv kvs IH]; simpl.
  - split; [by intros [? ?] | by intros [? [? ?]]].
  - destruct (last_int_binding n kvs) as [x|].
    + split; [|by eexists]. intros _.
      destruct (proj1 IH) as [k [Hin Hk]]; [by eexists|].
      exists k. split; [by right | done].
    + case_bool_decide as Hn.
      * split; [|by eexists]. intros _. exists (fst kv). split; [by left | done].
      * split; [by intros [? ?]|]. intros [k [[<-|Hin] Hk]]; [done|].
        destruct (proj2 IH) as [? ?]; [by exists k | done].
Qed.

(** X8. The loaded [Codes] map is keyed by the integers the document's keys
    denote: the entry of a status code is the shape name of the last member
    whose key is a decimal writing of that code, so ["404"] and ["+404"]
    are the same code; and a code has an entry exactly when some key of the
    document denotes it. *)
Theorem codes_are_keyed_by_integer (cs : list (string * json)) (d : decodeState) :
  exists m : gmap Z string,
    fst (decode_Codes (JObject cs) None d) = Some m
    /\ (forall n shape,
          last_int_binding n cs = Some (JString shape) -> m !! n = Some shape)
    /\ (forall n,
          is_Some (m !! n)
          <-> exists k, In k (List.map fst cs) /\ ParseInt k = Some n).
Proof.
  unfold decode_Codes, decode_int_map.
  pose proof (fun n => fold_int_map_member_lookup "" decode_string cs n
                         factors_string (default ∅ None) d) as L.
  destruct (fold_left (int_map_member "" decode_string) cs (default ∅ None, d))
    as [m e].
  exists m. split; [done|]. simpl in L. split.
  - intros n shape Hb. by rewrite L, Hb.
  - intros n. rewrite <- last_int_binding_is_Some, L.
    destruct (last_int_binding n cs) as [x|].
    + split; intros _; by eexists.
    + rewrite lookup_empty. split; by intros [? ?].
Qed.

Lemma codes_are_keyed_by_integer_witness :
  exists m : gmap Z string,
    fst (decode_Codes
           (JObject [ ("404", JString "NotFound"); ("+404", JString "NoSuchEntity") ])
           None None) = Some m
    /\ m !! 404%Z = Some "NoSuchEntity".
Proof.
  destruct (codes_are_keyed_by_integer
              [ ("404", JString "NotFound"); ("+404", JString "NoSuchEntity") ] None)
    as (m & Hm & Hs & _).
  exists m. split; [exact Hm|].
  exact (Hs 404%Z "NoSuchEntity" eq_refl).
Defined.

(** ** Lists of names *)

Lemma decode_elems_strings xs :
  forall old d, decode_elems "" decode_string (List.map JString xs) old d = (xs, d).
Proof.
  induction xs as [|x xs IH]; intros old d; simpl; [done|]. by rewrite IH.
Qed.

(** X9. A list of strings loads as that sequence: the same names in the same
    order, repetitions kept, and nothing of what the list held before.  So
    [match_fields] and the three lists of [ignore] are the lists the
    document gives. *)
Theorem string_lists_keep_order (xs : list string) (d : decodeState) :
  (forall old, decode_strings (JArray (List.map JString xs)) old d = (Some xs, d))
  /\ decode_ListOperationConfig
       (JObject [ ("match_fields", JArray (List.map JString xs)) ])
       Zero.ListOperationConfig d
     = ({| MatchFields := Some xs |}, d)
  /\ (forall v,
        Ignore_Operations
          (fst (decode_IgnoreSpec
                  (JObject [ ("operations", JArray (List.map JString xs)) ]) v d))
        = Some xs).
Proof.
  assert (E : forall old, decode_strings (JArray (List.map JString xs)) old d
                          = (Some xs, d)).
  { intros old. unfold decode_strings, decode_slice. by rewrite decode_elems_strings. }
  split; [exact E|]. split.
  - unfold decode_ListOperationConfig, decode_struct. simpl.
    unfold struct_member. simpl. unfold field. by rewrite E.
  - intros v. unfold decode_IgnoreSpec, decode_struct. simpl.
    unfold struct_member. simpl. unfold field. by rewrite E.
Qed.

(** ** Keys in another case *)

Lemma lower_folds c :
  (N_of_ascii c <? 128)%N = true ->
  Ascii.eqb (lower c) c = true
  \/ (isUpperLetter (N.land (N_of_ascii (lower c)) caseMask)
      && (N.land (N_of_ascii (lower c)) caseMask =? N.land (N_of_ascii c) caseMask)%N)
     = true.
Proof.
  destruct c as [[|] [|] [|] [|] [|] [|] [|] [|]]; vm_compute; intros H;
    first [discriminate H | by left | by right].
Qed.

(** The lower-case form of an ASCII key folds to the key. *)
Lemma equalFoldRight_lowercase key :
  is_ascii key = true -> equalFoldRight (lowercase key) key = true.
Proof.
  induction key as [|c key IH]; simpl; [done|].
  intros H. apply andb_true_iff in H as [Hc Hkey]. rewrite Hc.
  destruct (lower_folds c Hc) as [E|E].
  - rewrite E. by apply IH.
  - destruct (Ascii.eqb (lower c) c); [by apply IH|].
    rewrite E. by apply IH.
Qed.

(** A name that folds to an ASCII key has the key's lower-case form. *)
Lemma equalFoldRight_same_lowercase s key :
  is_ascii key = true -> equalFoldRight s key = true -> lowercase s = lowercase key.
Proof.
  revert key. induction s as [|sb s IH]; intros [|tb key]; simpl; try done.
  intros H. apply andb_true_iff in H as [Hc Hkey]. rewrite Hc.
  destruct (Ascii.eqb_spec sb tb) as [->|Hne].
  - intros E. by rewrite (IH key Hkey E).
  - destruct (isUpperLetter (N.land (N_of_ascii sb) caseMask)) eqn:Eu; [|done].
    simpl. destruct (N.eqb_spec (N.land (N_of_ascii sb) caseMask)
                       (N.land (N_of_ascii tb) caseMask)) as [Em|]; [|done].
    intros E. rewrite (IH key Hkey E). f_equal.
    unfold lower. by rewrite <- Em, Eu.
Qed.

(** In a table whose tags are in lower case, an ASCII key names the field
    whose tag is its lower-case form. *)
Lemma names_lowercase {T : Type} (fields : list (string * T)) (key : string) :
  (forall f, In f fields -> lowercase (fst f) = fst f) ->
  is_ascii key = true ->
  In (lowercase key) (List.map fst fields) ->
  names fields key (lowercase key) = true.
Proof.
  intros Hlow Hkey Hin. unfold names, lookupField.
  destruct (List.find (fun f => String.eqb (fst f) key) fields) as [f|] eqn:E1.
  - apply find_some in E1 as [Hf E]. apply String.eqb_eq in E.
    apply String.eqb_eq. by rewrite <- E, (Hlow f Hf).
  - destruct (List.find (fun f => equalFoldRight (fst f) key) fields) as [f|] eqn:E2.
    + apply find_some in E2 as [Hf E]. apply String.eqb_eq.
      by rewrite <- (equalFoldRight_same_lowercase _ _ Hkey E), (Hlow f Hf).
    + apply in_map_iff in Hin as [g [Hg Hgin]].
      pose proof (find_none _ _ E2 g Hgin) as Hno. simpl in Hno.
      by rewrite Hg, (equalFoldRight_lowercase key Hkey) in Hno.
Qed.

Lemma same_tag_same_field {T : Type} (fields : list (string * T)) f g :
  List.NoDup (List.map fst fields) ->
  In f fields -> In g fields -> fst f = fst g -> f = g.
Proof.
  induction fields as [|h fields IH]; simpl; [done|].
  intros Hnd Hf Hg E. apply List.NoDup_cons_iff in Hnd as [Hh Hnd].
  destruct Hf as [->|Hf], Hg as [->|Hg]; try done.
  - destruct Hh. rewrite E. by apply in_map.
  - destruct Hh. rewrite <- E. by apply in_map.
  - by apply IH.
Qed.

Lemma lower_ascii c :
  (N_of_ascii c <? 128)%N = true -> (N_of_ascii (lower c) <? 128)%N = true.
Proof.
  destruct c as [[|] [|] [|] [|] [|] [|] [|] [|]]; vm_compute; intros H;
    first [discriminate H | reflexivity].
Qed.

Lemma is_ascii_lowercase key : is_ascii key = true -> is_ascii (lowercase key) = true.
Proof.
  induction key as [|c key IH]; simpl; [done|].
  intros H. apply andb_true_iff in H as [Hc Hk].
  by rewrite (lower_ascii c Hc), (IH Hk).
Qed.

(** A member whose key is a tag in another case is stored as the member
    with the tag itself. *)
Lemma struct_member_lowercase {T : Type} (fields : list (string * decoder T))
    (key : string) (x : json) (st : T * decodeState) :
  (forall f, In f fields -> lowercase (fst f) = fst f) ->
  List.NoDup (List.map fst fields) ->
  is_ascii key = true ->
  In (lowercase key) (List.map fst fields) ->
  struct_member fields st (key, x) = struct_member fields st (lowercase key, x).
Proof.
  intros Hlow Hnd Hkey Hin.
  pose proof (names_lowercase fields key Hlow Hkey Hin) as N1.
  pose proof (is_ascii_lowercase key Hkey) as Hkey'.
  assert (Hidem : lowercase (lowercase key) = lowercase key).
  { apply in_map_iff in Hin as [g [Hg Hgin]]. rewrite <- Hg. by apply Hlow. }
  pose proof (names_lowercase fields (lowercase key) Hlow Hkey') as N2.
  rewrite Hidem in N2. specialize (N2 Hin).
  apply names_lookupField in N1 as [f [L1 [E1 Hf]]].
  apply names_lookupField in N2 as [g [L2 [E2 Hg]]].
  unfold struct_member. simpl. rewrite L1, L2.
  by rewrite (same_tag_same_field fields f g Hnd Hf Hg (eq_trans E1 (eq_sym E2))).
Qed.

Lemma decode_struct_recased {T : Type} ty (fields : list (string * decoder T))
    (before after : list (string * json)) (key : string) (x : json)
    (v : T) (d : decodeState) :
  (forall f, In f fields -> lowercase (fst f) = fst f) ->
  List.NoDup (List.map fst fields) ->
  is_ascii key = true ->
  In (lowercase key) (List.map fst fields) ->
  decode_struct ty fields (JObject (before ++ (key, x) :: after)) v d
  = decode_struct ty fields (JObject (before ++ (lowercase key, x) :: after)) v d.
Proof.
  intros Hlow Hnd Hkey Hin. unfold decode_struct.
  rewrite !fold_left_app. simpl.
  by rewrite (struct_member_lowercase fields key x _ Hlow Hnd Hkey Hin).
Qed.

(** The tags of a table are in lower case and pairwise different. *)
Ltac lower_case_tags :=
  let f := fresh "f" in
  let Hf := fresh "Hf" in
  intros f Hf; simpl in Hf;
  repeat (destruct Hf as [<-|Hf]; [reflexivity|]); contradiction.

Ltac different_tags :=
  simpl;
  repeat (apply List.NoDup_cons;
          [ let H := fresh "H" in
            simpl; intros H;
            repeat (destruct H as [H|H]; [discriminate H|]); exact H|]);
  apply List.NoDup_nil.

Ltac recased :=
  intros;
  unfold decode_GeneratorConfig, decode_IgnoreSpec, decode_ResourceGeneratorConfig,
    decode_UnpackAttributesMapConfig, decode_FieldGeneratorConfig,
    decode_ExceptionsConfig, decode_RenamesConfig, decode_OperationRenamesConfig,
    decode_ListOperationConfig;
  apply decode_struct_recased; [lower_case_tags | different_tags | assumption | assumption].

(** X10. The keys of a struct are matched without regard to ASCII case: in
    every object decoded into one of the structs, a member whose key is a
    tag written in another case ([Resources], [NAME_FIELD]) is stored in
    that tag's field, exactly as the member with the tag itself. *)
Theorem keys_match_in_any_case (key : string) (x : json)
    (before after : list (string * json)) (d : decodeState) :
  is_ascii key = true ->
  (forall v, In (lowercase key) (List.map fst GeneratorConfig_fields) ->
     decode_GeneratorConfig (JObject (before ++ (key, x) :: after)) v d
     = decode_GeneratorConfig (JObject (before ++ (lowercase key, x) :: after)) v d)
  /\ (forall v, In (lowercase key) (List.map fst IgnoreSpec_fields) ->
        decode_IgnoreSpec (JObject (before ++ (key, x) :: after)) v d
        = decode_IgnoreSpec (JObject (before ++ (lowercase key, x) :: after)) v d)
  /\ (forall v, In (lowercase key) (List.map fst ResourceGeneratorConfig_fields) ->
        decode_ResourceGeneratorConfig (JObject (before ++ (key, x) :: after)) v d
        = decode_ResourceGeneratorConfig
            (JObject (before ++ (lowercase key, x) :: after)) v d)
  /\ (forall v, In (lowercase key) (List.map fst UnpackAttributesMapConfig_fields) ->
        decode_UnpackAttributesMapConfig (JObject (before ++ (key, x) :: after)) v d
        = decode_UnpackAttributesMapConfig
            (JObject (before ++ (lowercase key, x) :: after)) v d)
  /\ (forall v, In (lowercase key) (List.map fst FieldGeneratorConfig_fields) ->
        decode_FieldGeneratorConfig (JObject (before ++ (key, x) :: after)) v d
        = decode_FieldGeneratorConfig
            (JObject (before ++ (lowercase key, x) :: after)) v d)
  /\ (forall v, In (lowercase key) (List.map fst ExceptionsConfig_fields) ->
        decode_ExceptionsConfig (JObject (before ++ (key, x) :: after)) v d
        = decode_ExceptionsConfig (JObject (before ++ (lowercase key, x) :: after)) v d)
  /\ (forall v, In (lowercase key) (List.map fst RenamesConfig_fields) ->
        decode_RenamesConfig (JObject (before ++ (key, x) :: after)) v d
        = decode_RenamesConfig (JObject (before ++ (lowercase key, x) :: after)) v d)
  /\ (forall v, In (lowercase key) (List.map fst OperationRenamesConfig_fields) ->
        decode_OperationRenamesConfig (JObject (before ++ (key, x) :: after)) v d
        = decode_OperationRenamesConfig
            (JObject (before ++ (lowercase key, x) :: after)) v d)
  /\ (forall v, In (lowercase key) (List.map fst ListOperationConfig_fields) ->
        decode_ListOperationConfig (JObject (before ++ (key, x) :: after)) v d
        = decode_ListOperationConfig
            (JObject (before ++ (lowercase key, x) :: after)) v d).
Proof.
  intros Hkey. repeat split; recased.
Qed.

Lemma keys_match_in_any_case_witness :
  decode_GeneratorConfig
    (JObject [ ("Resources", JObject [ ("Topic", JNull) ]) ]) Zero.GeneratorConfig None
  = decode_GeneratorConfig
      (JObject [ ("resources", JObject [ ("Topic", JNull) ]) ]) Zero.GeneratorConfig None.
Proof.
  exact (proj1 (keys_match_in_any_case "Resources" (JObject [ ("Topic", JNull) ])
                  [] [] None eq_refl)
           Zero.GeneratorConfig (or_introl eq_refl)).
Defined.
